(** * Session-state reconciliation of the research-agent chat frontend

    A shallow embedding of the client-side logic of [App.tsx]
    (event classification, the live activity buffer, the archive of
    completed turns, the YouTube result store, submission and
    cancellation) and of the projection done by [ChatMessagesView.tsx]
    and [YouTubeResults.tsx], followed by the properties that relate the
    written specification to that code.

    React state cells ([useState], [useRef]) are fields of a record that
    is passed in and returned; calls on the transport hook ([thread.submit],
    [thread.stop]) are collected in an outbox; the values the runtime
    supplies ([Date.now()], [Math.random()]) are explicit arguments. *)

From Stdlib Require Import String Ascii ZArith QArith Qround List Bool Lia.
From Stdlib Require Import DecimalString.
From Stdlib Require Import DecimalPos DecimalZ Lqa.
From stdpp Require Import gmap strings list fin_maps.

Import ListNotations.
Local Open Scope string_scope.
Local Open Scope list_scope.

(** ** JavaScript primitives used by the source *)

Module Js.

(** The one-character string holding a double quote (code point 34). *)
Definition dquote : string := String "034"%char EmptyString.

(** Truthiness of a string: every string but the empty one. *)
Definition truthy (s : string) : bool :=
  match s with
  | EmptyString => false
  | String _ _ => true
  end.

(** [a || b] on strings. *)
Definition or_else (a b : string) : string := if truthy a then a else b.

(** [Array.prototype.join(sep)] on an array of strings. *)
Definition join (sep : string) (l : list string) : string := String.concat sep l.

(** Decimal rendering of an integral number, as in a template literal. *)
Definition Number_toString (z : Z) : string := NilZero.string_of_int (Z.to_int z).

(** [Math.round]: the closest integer, ties towards plus infinity.
    Numbers that are not integers are carried as exact rationals, so a
    product reaches [Math.round] exact and not rounded to a double first. *)
Definition Math_round (q : Q) : Z := Qfloor (q + (1 # 2)).

(** White space and line terminators removed by [String.prototype.trim].
    A character of a [string] here stands for one UTF-16 code unit below
    256; among those the ones [trim] removes are tab, line feed, vertical
    tab, form feed, carriage return, space and the no-break space (160). *)
Definition is_whitespace (c : ascii) : bool :=
  match nat_of_ascii c with
  | 9 | 10 | 11 | 12 | 13 | 32 | 160 => true
  | _ => false
  end.

Fixpoint trimStart (s : string) : string :=
  match s with
  | EmptyString => EmptyString
  | String c r => if is_whitespace c then trimStart r else s
  end.

Definition trimEnd (s : string) : string := String.rev (trimStart (String.rev s)).

Definition trim (s : string) : string := trimEnd (trimStart s).

(** [new Set(xs)] followed by spreading: the elements in order of first
    insertion; an element already present is not added again. *)
Definition Set_add (acc : list string) (x : string) : list string :=
  if existsb (String.eqb x) acc then acc else acc ++ [x].

Definition Set_of (xs : list string) : list string := fold_left Set_add xs [].

(** [xs.slice(0, n)]. *)
Definition slice0 {A} (n : nat) (xs : list A) : list A := firstn n xs.

End Js.

(** ** Data model *)

(** [ProcessedEvent] of [ActivityTimeline]: a title and a summary. *)
Record ProcessedEvent := mkProcessedEvent {
  title : string;
  data : string;
}.

(** [Message] of the LangGraph SDK, reduced to the fields the source reads.
    [type] is the string tag the source compares against ["human"] and
    ["ai"]; [id] is optional in the SDK. *)
Module Message.
Record t := mk {
  type : string;
  content : string;
  id : option string;
}.
End Message.

Module YouTubeVideo.
Record t := mk {
  video_id : string;
  title : string;
  channel : string;
  description : string;
  thumbnail_url : string;
  duration : string;
  view_count : string;
  published_at : string;
}.
End YouTubeVideo.

(** The [youtube_results] object of a [youtube_action] update.  A field the
    backend left out is [None] (JavaScript [undefined]). *)
Module YouTubeResults.
Record t := mk {
  videos : option (list YouTubeVideo.t);
  query : option string;
  total_results : option Z;
}.
End YouTubeResults.

(** What [setYoutubeResults] stores: the spread of the raw results plus the
    [timestamp] and [threadId] stamps. *)
Module StableResults.
Record t := mk {
  results : YouTubeResults.t;
  timestamp : Z;
  threadId : string;
}.
Definition videos (r : t) : option (list YouTubeVideo.t) :=
  YouTubeResults.videos (results r).
End StableResults.

(** *** Raw update events

    An update event is an object with one field per graph node that
    reported; the source tests those fields in a fixed order.  Each node
    payload is an object whose sub-fields may be missing. *)

Record ClassifyIntent := mkClassifyIntent {
  intent_type : option string;
  confidence : option Q;
}.

Record YoutubeAction := mkYoutubeAction {
  youtube_results : option YouTubeResults.t;
}.

(** [query_list] is normally an array; the source also accepts any other
    value and renders it with [String(..)]; a string stands for that case. *)
Inductive QueryList :=
| QueryArray (qs : list string)
| QueryOther (s : string).

Record GenerateQuery := mkGenerateQuery {
  query_list : option QueryList;
}.

Record Source := mkSource {
  label : option string;
}.

Record WebResearch := mkWebResearch {
  sources_gathered : option (list Source);
}.

Record Reflection := mkReflection {
  is_sufficient : option bool;
  follow_up_queries : option (list string);
}.

(** The payload of [finalize_answer] is never inspected. *)
Inductive FinalizeAnswer := mkFinalizeAnswer.

Record RawEvent := mkRawEvent {
  classify_intent : option ClassifyIntent;
  youtube_action : option YoutubeAction;
  generate_query : option GenerateQuery;
  web_research : option WebResearch;
  reflection : option Reflection;
  finalize_answer : option FinalizeAnswer;
}.

(** An event that names no node the source knows. *)
Definition unrecognized_event : RawEvent :=
  mkRawEvent None None None None None None.

(** ** Application state *)

(** The state cells of [App]: three [useState] cells for the live buffer,
    the archive and the YouTube results, the current thread identifier, and
    the [useRef] flag raised by the finalize event. *)
Record AppState := mkAppState {
  processedEventsTimeline : list ProcessedEvent;
  historicalActivities : gmap string (list ProcessedEvent);
  youtubeResults : option StableResults.t;
  currentThreadId : string;
  hasFinalizeEventOccurredRef : bool;
}.

(** What [useStream] exposes for reading; only the transport changes it. *)
Record Thread := mkThread {
  messages : list Message.t;
  isLoading : bool;
}.

(** The values object handed to [thread.submit]. *)
Record SubmitValues := mkSubmitValues {
  submit_messages : list Message.t;
  initial_search_query_count : Z;
  max_research_loops : Z;
  reasoning_model : string;
}.

(** Calls made on the transport hook. *)
Inductive TransportCall :=
| Submit (values : SubmitValues)
| Stop.

(** The page: the component state, the hook's readable state, and the calls
    issued to the transport so far, oldest first. *)
Record World := mkWorld {
  app : AppState;
  thread : Thread;
  outbox : list TransportCall;
}.

(** State on mount: the initial values passed to [useState] and [useRef],
    and a stream hook with no thread yet. *)
Definition initialAppState : AppState :=
  mkAppState [] ∅ None EmptyString false.

Definition initialThread : Thread := mkThread [] false.

(** *** State setters *)

Definition setProcessedEventsTimeline
    (f : list ProcessedEvent -> list ProcessedEvent) (s : AppState) : AppState :=
  mkAppState (f (processedEventsTimeline s)) (historicalActivities s)
             (youtubeResults s) (currentThreadId s) (hasFinalizeEventOccurredRef s).

Definition setHistoricalActivities
    (f : gmap string (list ProcessedEvent) -> gmap string (list ProcessedEvent))
    (s : AppState) : AppState :=
  mkAppState (processedEventsTimeline s) (f (historicalActivities s))
             (youtubeResults s) (currentThreadId s) (hasFinalizeEventOccurredRef s).

Definition setYoutubeResults (r : option StableResults.t) (s : AppState) : AppState :=
  mkAppState (processedEventsTimeline s) (historicalActivities s)
             r (currentThreadId s) (hasFinalizeEventOccurredRef s).

Definition setCurrentThreadId (i : string) (s : AppState) : AppState :=
  mkAppState (processedEventsTimeline s) (historicalActivities s)
             (youtubeResults s) i (hasFinalizeEventOccurredRef s).

Definition setHasFinalizeEventOccurred (b : bool) (s : AppState) : AppState :=
  mkAppState (processedEventsTimeline s) (historicalActivities s)
             (youtubeResults s) (currentThreadId s) b.

(** ** Event classification: [onUpdateEvent] *)

(** A missing value inside a template literal prints as [undefined]. *)
Definition template_string (o : option string) : string :=
  match o with
  | Some s => s
  | None => "undefined"
  end.

(** [Math.round(confidence * 100)] inside a template literal; a missing
    confidence makes the product [NaN]. *)
Definition percent_text (c : option Q) : string :=
  match c with
  | Some q => Js.Number_toString (Js.Math_round (Qmult q (100 # 1)))
  | None => "NaN"
  end.

Definition classify_intent_event (ci : ClassifyIntent) : ProcessedEvent :=
  mkProcessedEvent "Analyzing Intent"
    ("Detected: " ++ template_string (intent_type ci) ++ " (" ++
     percent_text (confidence ci) ++ "% confidence)").

(** The guard [results && results.videos && results.videos.length > 0]:
    the results object together with its non-empty list of videos. *)
Definition videos_found (results : option YouTubeResults.t)
    : option (YouTubeResults.t * list YouTubeVideo.t) :=
  match results with
  | Some r =>
      match YouTubeResults.videos r with
      | Some vs => if (0 <? length vs)%nat then Some (r, vs) else None
      | None => None
      end
  | None => None
  end.

Definition youtube_found_event (r : YouTubeResults.t) (vs : list YouTubeVideo.t)
    : ProcessedEvent :=
  mkProcessedEvent "YouTube Search"
    ("Found " ++ Js.Number_toString (Z.of_nat (length vs)) ++ " videos for " ++
     Js.dquote ++ template_string (YouTubeResults.query r) ++ Js.dquote).

Definition youtube_none_event : ProcessedEvent :=
  mkProcessedEvent "YouTube Search" "No videos found or YouTube not configured".

(** [query_list || []], then [join] for an array and [String(..)] otherwise. *)
Definition queryString (gq : GenerateQuery) : string :=
  let queries :=
    match query_list gq with
    | Some (QueryArray qs) => QueryArray qs
    | Some (QueryOther s) => if Js.truthy s then QueryOther s else QueryArray []
    | None => QueryArray []
    end in
  match queries with
  | QueryArray qs => Js.join ", " qs
  | QueryOther s => s
  end.

Definition generate_query_event (gq : GenerateQuery) : ProcessedEvent :=
  mkProcessedEvent "Generating Search Queries" (queryString gq).

(** [Boolean] as a filter predicate on a label that may be missing. *)
Definition Boolean (o : option string) : bool :=
  match o with
  | Some l => Js.truthy l
  | None => false
  end.

(** [sources.map(s => s.label).filter(Boolean)]: the labels that are present
    and not the empty string, in source order.  What passes the filter is a
    string, and is kept as one. *)
Definition truthy_labels (sources : list Source) : list string :=
  flat_map (fun o => match o with Some l => [l] | None => [] end)
           (List.filter Boolean (map label sources)).

Definition uniqueLabels (sources : list Source) : list string :=
  Js.Set_of (truthy_labels sources).

Definition exampleLabels (sources : list Source) : string :=
  Js.join ", " (Js.slice0 3 (uniqueLabels sources)).

Definition web_research_event (wr : WebResearch) : ProcessedEvent :=
  let sources := match sources_gathered wr with Some l => l | None => [] end in
  let numSources := length sources in
  mkProcessedEvent "Web Research"
    ("Gathered " ++ Js.Number_toString (Z.of_nat numSources) ++
     " sources. Related to: " ++ Js.or_else (exampleLabels sources) "N/A" ++ ".").

Definition reflection_event (r : Reflection) : ProcessedEvent :=
  mkProcessedEvent "Reflection"
    (match is_sufficient r with
     | Some true => "Search successful, generating final answer."
     | _ =>
         "Need more information, searching for " ++
         Js.or_else (match follow_up_queries r with
                     | Some qs => Js.join ", " qs
                     | None => EmptyString
                     end) "additional information"
     end).

Definition finalize_event : ProcessedEvent :=
  mkProcessedEvent "Finalizing Answer" "Composing and presenting the final answer.".

(** The [if / else if] chain of [onUpdateEvent]: the event to append, if any,
    and the state after the side effects of the branch taken.  [now] is the
    value [Date.now()] returns in the YouTube branch. *)
Definition classify (now : Z) (event : RawEvent) (s : AppState)
    : option ProcessedEvent * AppState :=
  match classify_intent event with
  | Some ci => (Some (classify_intent_event ci), s)
  | None =>
  match youtube_action event with
  | Some ya =>
      match videos_found (youtube_results ya) with
      | Some (results, vs) =>
          let stableResults := StableResults.mk results now (currentThreadId s) in
          (Some (youtube_found_event results vs),
           setYoutubeResults (Some stableResults) s)
      | None => (Some youtube_none_event, s)
      end
  | None =>
  match generate_query event with
  | Some gq => (Some (generate_query_event gq), s)
  | None =>
  match web_research event with
  | Some wr => (Some (web_research_event wr), s)
  | None =>
  match reflection event with
  | Some r => (Some (reflection_event r), s)
  | None =>
  match finalize_answer event with
  | Some _ => (Some finalize_event, setHasFinalizeEventOccurred true s)
  | None => (None, s)
  end end end end end end.

Definition onUpdateEvent (now : Z) (event : RawEvent) (s : AppState) : AppState :=
  let '(processedEvent, s1) := classify now event s in
  match processedEvent with
  | Some e => setProcessedEventsTimeline (fun prevEvents => prevEvents ++ [e]) s1
  | None => s1
  end.

(** ** Archival: the second [useEffect] of [App] *)

(** [thread.messages[thread.messages.length - 1]]. *)
Definition lastMessage (ms : list Message.t) : option Message.t :=
  ms !! (length ms - 1)%nat.

(** The guard [lastMessage && lastMessage.type === "ai" && lastMessage.id]:
    the identifier under which the turn is archived, if any. *)
Definition archive_key (ms : list Message.t) : option string :=
  match lastMessage ms with
  | Some m =>
      if String.eqb (Message.type m) "ai"
      then match Message.id m with
           | Some i => if Js.truthy i then Some i else None
           | None => None
           end
      else None
  | None => None
  end.

(** The updater [{...prev, [id]: [...events]}]. *)
Definition record_archive (i : string) (events : list ProcessedEvent)
    (prev : gmap string (list ProcessedEvent)) : gmap string (list ProcessedEvent) :=
  <[i := events]> prev.

Definition archival_effect (t : Thread) (s : AppState) : AppState :=
  if hasFinalizeEventOccurredRef s && negb (isLoading t) &&
     (0 <? length (messages t))%nat
  then
    let s1 :=
      match archive_key (messages t) with
      | Some i =>
          setHistoricalActivities (record_archive i (processedEventsTimeline s)) s
      | None => s
      end in
    setHasFinalizeEventOccurred false s1
  else s.

(** ** Submission and cancellation *)

(** What the runtime supplies during one [handleSubmit]: the clock read for
    the thread identifier, the base-36 digits cut out of [Math.random()],
    and the clock read for the identifier of the human message. *)
Record Runtime := mkRuntime {
  now_thread : Z;
  random_digits : string;
  now_message : Z;
}.

(** The [switch (effort)] of [handleSubmit]; it has no default arm. *)
Definition effort_counts (effort : string) : Z * Z :=
  let initial_search_query_count := 0%Z in
  let max_research_loops := 0%Z in
  if String.eqb effort "low" then (1, 1)%Z
  else if String.eqb effort "medium" then (3, 3)%Z
  else if String.eqb effort "high" then (5, 10)%Z
  else (initial_search_query_count, max_research_loops).

Definition handleSubmit (rt : Runtime) (submittedInputValue effort model : string)
    (w : World) : World :=
  if negb (Js.truthy (Js.trim submittedInputValue)) then w
  else
    let newThreadId :=
      ("thread_" ++ Js.Number_toString (now_thread rt) ++ "_" ++ random_digits rt)%string in
    let s1 := setCurrentThreadId newThreadId (app w) in
    let s2 := setProcessedEventsTimeline (fun _ => []) s1 in
    let s3 := if negb (isLoading (thread w)) then setYoutubeResults None s2 else s2 in
    let s4 := setHasFinalizeEventOccurred false s3 in
    let '(count, loops) := effort_counts effort in
    let newMessages :=
      messages (thread w) ++
      [Message.mk "human" submittedInputValue
                  (Some (Js.Number_toString (now_message rt)))] in
    mkWorld s4 (thread w)
            (outbox w ++ [Submit (mkSubmitValues newMessages count loops model)]).

(** [window.location.reload()]: the document is discarded and [App] mounts
    again, so every state cell and the stream hook start over.  The calls
    already made on the transport stay made. *)
Definition window_location_reload (w : World) : World :=
  mkWorld initialAppState initialThread (outbox w).

(** [handleCancel] up to, and not including, the reload. *)
Definition handleCancel_setters (w : World) : World :=
  let w1 := mkWorld (app w) (thread w) (outbox w ++ [Stop]) in
  let s2 := setYoutubeResults None (app w1) in
  let s3 := setCurrentThreadId EmptyString s2 in
  mkWorld s3 (thread w1) (outbox w1).

Definition handleCancel (w : World) : World :=
  window_location_reload (handleCancel_setters w).

(** ** The page as a reactive system *)

(** What can happen to the page: the user submits or cancels, the transport
    delivers an update event, or the transport changes what the hook shows
    (messages, loading flag). *)
Inductive Action :=
| UserSubmit (rt : Runtime) (input effort model : string)
| UserCancel
| Deliver (now : Z) (event : RawEvent)
| Transport (t : Thread).

(** The handler of an action.  A delivered event is handled on the state
    cells as they stand.  The one value [onUpdateEvent] takes from its
    closure instead of a cell is [currentThreadId]: it is that of the render
    whose handlers the running stream was given.  Where the stamp put on
    stored results matters, the closure's identifier is a parameter of the
    statement. *)
Definition handle (a : Action) (w : World) : World :=
  match a with
  | UserSubmit rt input effort model => handleSubmit rt input effort model w
  | UserCancel => handleCancel w
  | Deliver now event => mkWorld (onUpdateEvent now event (app w)) (thread w) (outbox w)
  | Transport t => mkWorld (app w) t (outbox w)
  end.

(** After the handler the component renders again and the archival effect
    sees the new state. *)
Definition run_effects (w : World) : World :=
  mkWorld (archival_effect (thread w) (app w)) (thread w) (outbox w).

Definition step (a : Action) (w : World) : World := run_effects (handle a w).

Definition run (actions : list Action) (w : World) : World :=
  fold_left (fun w a => step a w) actions w.

(** ** Projection: [ChatMessagesView], [AiMessageBubble], [YouTubeResults] *)

(** The render condition of the [YouTubeResults] component: it returns
    [null] without results, without videos, or when its own [isVisible]
    state cell is false. *)
Definition YouTubeResults_renders (results : option StableResults.t) (isVisible : bool)
    : bool :=
  match results with
  | Some r =>
      match StableResults.videos r with
      | Some vs => negb (length vs =? 0)%nat && isVisible
      | None => false
      end
  | None => false
  end.

(** The first effect of [YouTubeResults], run on mount and whenever the
    [results] prop changes: the next value of [isVisible]. *)
Definition on_results_change (results : option StableResults.t) (isVisible : bool)
    : bool :=
  match results with
  | Some r =>
      match StableResults.videos r with
      | Some vs => if (0 <? length vs)%nat then true else isVisible
      | None => isVisible
      end
  | None => isVisible
  end.

(** One entry of an [IntersectionObserver] callback. *)
Record IntersectionEntry := mkIntersectionEntry {
  isIntersecting : bool;
  intersectionRatio : Q;
}.

(** The observer callback of [YouTubeResults]: the next value of
    [isVisible]. *)
Definition on_intersection (results : option StableResults.t)
    (entry : IntersectionEntry) (isVisible : bool) : bool :=
  match results with
  | Some r =>
      match StableResults.videos r with
      | Some vs =>
          if (0 <? length vs)%nat
          then isIntersecting entry ||
               (if Qlt_le_dec 0 (intersectionRatio entry) then true else false)
          else isVisible
      | None => isVisible
      end
  | None => isVisible
  end.

(** [shouldShowYouTube] of [AiMessageBubble]. *)
Definition shouldShowYouTube (isLastMessage : bool) (youtubeResults : option StableResults.t)
    : bool :=
  isLastMessage &&
  match youtubeResults with
  | Some r =>
      match StableResults.videos r with
      | Some vs => (0 <? length vs)%nat
      | None => false
      end
  | None => false
  end.

(** What one transcript entry puts on screen. *)
Inductive Bubble :=
| HumanMessageBubble (message : Message.t)
| AiMessageBubble (message : Message.t)
    (activityForThisBubble : option (list ProcessedEvent))
    (isLiveActivityForThisBubble : bool)
    (youtubeShown : option StableResults.t).

(** The key used by [historicalActivities[message.id!]]: a missing
    identifier indexes the object with the property name [undefined]. *)
Definition property_key (i : option string) : string := template_string i.

Definition render_AiMessageBubble (message : Message.t)
    (historicalActivity : option (list ProcessedEvent))
    (liveActivity : list ProcessedEvent)
    (isLastMessage isOverallLoading : bool)
    (youtubeResults : option StableResults.t) (isVisible : bool) : Bubble :=
  let activityForThisBubble :=
    if isLastMessage && isOverallLoading then Some liveActivity else historicalActivity in
  let isLiveActivityForThisBubble := isLastMessage && isOverallLoading in
  AiMessageBubble message activityForThisBubble isLiveActivityForThisBubble
    (if shouldShowYouTube isLastMessage youtubeResults &&
        YouTubeResults_renders youtubeResults isVisible
     then youtubeResults else None).

(** The bubbles [ChatMessagesView] renders for the transcript, one per
    message.  [isVisible] is the state cell of the one [YouTubeResults]
    instance that can be mounted.  The placeholder drawn after the entries
    while a turn loads shows activity only and is left out. *)
Definition ChatMessagesView (messages : list Message.t) (isLoading : bool)
    (liveActivityEvents : list ProcessedEvent)
    (historicalActivities : gmap string (list ProcessedEvent))
    (youtubeResults : option StableResults.t) (isVisible : bool) : list Bubble :=
  imap (fun index message =>
          let isLast := (index =? length messages - 1)%nat in
          if String.eqb (Message.type message) "human"
          then HumanMessageBubble message
          else render_AiMessageBubble message
                 (historicalActivities !! property_key (Message.id message))
                 liveActivityEvents isLast isLoading
                 (if isLast then youtubeResults else None) isVisible)
       messages.

(** The payload an entry displays, if any. *)
Definition youtube_on (b : Bubble) : option StableResults.t :=
  match b with
  | HumanMessageBubble _ => None
  | AiMessageBubble _ _ _ shown => shown
  end.

(** The view of a page. *)
Definition view (w : World) (isVisible : bool) : list Bubble :=
  ChatMessagesView (messages (thread w)) (isLoading (thread w))
    (processedEventsTimeline (app w)) (historicalActivities (app w))
    (youtubeResults (app w)) isVisible.

(** * Predicates of the specification and sample pages *)

(** Whether the event reaches the branch that calls [setYoutubeResults]. *)
Definition forwards_payload (event : RawEvent) : bool :=
  match classify_intent event, youtube_action event with
  | None, Some ya => bool_decide (is_Some (videos_found (youtube_results ya)))
  | _, _ => false
  end.

(** An action of a running turn that brings no replacement payload: a
    transport update, or the delivery of an event that does not reach the
    branch calling [setYoutubeResults]. *)
Definition keeps_payload (a : Action) : Prop :=
  match a with
  | Deliver _ event => forwards_payload event = false
  | Transport _ => True
  | UserSubmit _ _ _ _ | UserCancel => False
  end.

(** The specification's reading of the label list: the distinct labels in
    order of first occurrence. *)
Fixpoint first_occurrences (xs : list string) : list string :=
  match xs with
  | [] => []
  | x :: r => x :: List.filter (fun y => negb (String.eqb y x)) (first_occurrences r)
  end.

(** The labels the specification counts: present and not empty. *)
Definition nonempty_labels (sources : list Source) : list string :=
  flat_map (fun s => match label s with
                     | Some l => if String.eqb l EmptyString then [] else [l]
                     | None => []
                     end) sources.

(** The summary the specification prescribes for a list of sources. *)
Definition spec_web_research_summary (sources : list Source) : string :=
  ("Gathered " ++ Js.Number_toString (Z.of_nat (length sources)) ++
   " sources. Related to: " ++
   match firstn 3 (first_occurrences (nonempty_labels sources)) with
   | [] => "N/A"
   | shown => String.concat ", " shown
   end ++ ".")%string.

(** An event is dispatched to the [web_research] branch when no earlier
    branch of the chain takes it. *)
Definition is_web_research (event : RawEvent) (wr : WebResearch) : Prop :=
  classify_intent event = None /\ youtube_action event = None /\
  generate_query event = None /\ web_research event = Some wr.

(** [event.web_research.sources_gathered || []]. *)
Definition sources_of (wr : WebResearch) : list Source :=
  match sources_gathered wr with Some l => l | None => [] end.

(** The five sources of the specification's second example. *)
Definition example_sources : list Source :=
  map (fun l => mkSource (Some l)) ["a"; "a"; "b"; "c"; "d"].

(** An event is dispatched to the [youtube_action] branch when the
    [classify_intent] test before it fails. *)
Definition is_youtube_action (event : RawEvent) (ya : YoutubeAction) : Prop :=
  classify_intent event = None /\ youtube_action event = Some ya.

(** The result list is absent (no results object, or no [videos] in it) or
    empty. *)
Definition no_result_items (ya : YoutubeAction) : Prop :=
  youtube_results ya = None \/
  exists r, youtube_results ya = Some r /\
            (YouTubeResults.videos r = None \/ YouTubeResults.videos r = Some []).

(** The guard at the top of [handleSubmit]: the input is not blank. *)
Definition submits (input : string) : Prop := Js.truthy (Js.trim input) = true.

(** The conditions of the transition: the finalize flag is raised, the
    transport no longer loads, and the last message of the transcript is an
    [ai] message whose identifier [i] is known (present and not empty). *)
Definition terminal_ready (t : Thread) (s : AppState) (i : string) : Prop :=
  hasFinalizeEventOccurredRef s = true /\
  isLoading t = false /\
  exists m, lastMessage (messages t) = Some m /\
            Message.type m = "ai" /\ Message.id m = Some i /\ i <> EmptyString.

(** Discharges [terminal_ready] on a concrete thread and state. *)
Ltac ready :=
  unfold terminal_ready; repeat split;
  try (eexists; repeat split); try reflexivity; try discriminate.

(** A turn that finished streaming: the finalize event is in the buffer, the
    flag is raised, the assistant message [m1] closes the transcript. *)
Definition finished_turn_thread : Thread :=
  mkThread [Message.mk "human" "capital of France" (Some "21");
            Message.mk "ai" "Paris." (Some "m1")] false.

(** The component state at that moment. *)
Definition finished_turn_state : AppState :=
  mkAppState [finalize_event] ∅ None "thread_20_k3j9x1q0z" true.

(** An update that carries only the finalize node. *)
Definition finalize_only : RawEvent :=
  mkRawEvent None None None None None (Some mkFinalizeAnswer).

(** Truthiness of a node field of the event object. *)
Definition present {A} (o : option A) : bool :=
  match o with
  | Some _ => true
  | None => false
  end.

(** The event names at least one node the chain tests. *)
Definition recognized (event : RawEvent) : bool :=
  present (classify_intent event) || present (youtube_action event) ||
  present (generate_query event) || present (web_research event) ||
  present (reflection event) || present (finalize_answer event).

(** Node payloads with every sub-field missing. *)
Definition bare_classify_intent : RawEvent :=
  mkRawEvent (Some (mkClassifyIntent None None)) None None None None None.
Definition bare_youtube_action : RawEvent :=
  mkRawEvent None (Some (mkYoutubeAction None)) None None None None.
Definition bare_generate_query : RawEvent :=
  mkRawEvent None None (Some (mkGenerateQuery None)) None None None.
Definition bare_web_research : RawEvent :=
  mkRawEvent None None None (Some (mkWebResearch None)) None None.
Definition bare_reflection : RawEvent :=
  mkRawEvent None None None None (Some (mkReflection None None)) None.

(** A video as the backend reports it. *)
Definition sample_video : YouTubeVideo.t :=
  YouTubeVideo.mk "v1" "Cats" "Pets" "A cat." "cats.jpg" "1:00" "10" "2024".

(** A result payload with that one video. *)
Definition sample_results : YouTubeResults.t :=
  YouTubeResults.mk (Some [sample_video]) (Some "cats") (Some 1%Z).

(** An update of the [youtube_action] node that carries the payload. *)
Definition youtube_update : RawEvent :=
  mkRawEvent None (Some (mkYoutubeAction (Some sample_results))) None None None None.

(** A turn in the middle of streaming, two Progress events buffered. *)
Definition streaming_world : World :=
  mkWorld
    (mkAppState [generate_query_event (mkGenerateQuery (Some (QueryArray ["paris"])));
                 web_research_event (mkWebResearch (Some example_sources))]
                ∅ None "thread_20_k3j9x1q0z" false)
    (mkThread [Message.mk "human" "capital of France" (Some "21")] true)
    [].

(** An action that neither reloads the page nor makes the message [k] the
    closing assistant message of the transcript. *)
Definition keeps_clear_of (k : string) (a : Action) : Prop :=
  match a with
  | UserCancel => False
  | Transport t => archive_key (messages t) <> Some k
  | UserSubmit _ _ _ _ | Deliver _ _ => True
  end.

(** Two turns from a fresh page: each is submitted, streams its events
    while the transport loads, and ends with its assistant message closing
    the transcript. *)
Definition turn_A : list Action :=
  [UserSubmit (mkRuntime 20 "k3j9x1q0z" 21) "capital of France" "low" "gemini";
   Transport (mkThread [Message.mk "human" "capital of France" (Some "21")] true);
   Deliver 22 bare_reflection;
   Deliver 23 finalize_only;
   Transport (mkThread [Message.mk "human" "capital of France" (Some "21");
                        Message.mk "ai" "Paris." (Some "m1")] false)].

(** The second turn, started on the page the first one left. *)
Definition turn_B : list Action :=
  [UserSubmit (mkRuntime 50 "p0o9i8u7y" 51) "and of Italy" "low" "gemini";
   Transport (mkThread [Message.mk "human" "capital of France" (Some "21");
                        Message.mk "ai" "Paris." (Some "m1");
                        Message.mk "human" "and of Italy" (Some "51")] true);
   Deliver 52 finalize_only;
   Transport (mkThread [Message.mk "human" "capital of France" (Some "21");
                        Message.mk "ai" "Paris." (Some "m1");
                        Message.mk "human" "and of Italy" (Some "51");
                        Message.mk "ai" "Rome." (Some "m2")] false)].

(** The page right after it was loaded. *)
Definition fresh_page : World := mkWorld initialAppState initialThread [].

(** The events the first turn buffers. *)
Definition turn_A_events : list ProcessedEvent :=
  [reflection_event (mkReflection None None); finalize_event].

(** The archival effect is about to store the buffer under [k]: the flag is
    raised, the transport is not loading and [k] identifies the closing
    assistant message. *)
Definition archives_under (k : string) (w : World) : bool :=
  hasFinalizeEventOccurredRef (app w) && negb (isLoading (thread w)) &&
  match archive_key (messages (thread w)) with
  | Some i => String.eqb i k
  | None => false
  end.

(** A run without cancellation in which no archival is made under [k]. *)
Fixpoint leaves_entry_alone (k : string) (actions : list Action) (w : World) : Prop :=
  match actions with
  | [] => True
  | a :: rest =>
      a <> UserCancel /\ archives_under k (handle a w) = false /\
      leaves_entry_alone k rest (step a w)
  end.

(** The stored payload has at least one video. *)
Definition has_videos (youtubeResults : option StableResults.t) : bool :=
  match youtubeResults with
  | Some r =>
      match StableResults.videos r with
      | Some vs => (0 <? length vs)%nat
      | None => false
      end
  | None => false
  end.

(** What the entry at [index] displays, read off the stored state and the
    visibility cell. *)
Definition displayed_at (messages : list Message.t)
    (youtubeResults : option StableResults.t) (isVisible : bool)
    (index : nat) (message : Message.t) : option StableResults.t :=
  if (index =? length messages - 1)%nat &&
     negb (String.eqb (Message.type message) "human") &&
     has_videos youtubeResults && isVisible
  then youtubeResults else None.

(** A transcript of one finished turn. *)
Definition sample_transcript : list Message.t :=
  [Message.mk "human" "cat videos" (Some "21"); Message.mk "ai" "Here you go." (Some "m1")].

(** The payload as [setYoutubeResults] stored it. *)
Definition sample_stored : option StableResults.t :=
  Some (StableResults.mk sample_results 40 "thread_20_k3j9x1q0z").

(** A page at rest that shows a finished turn and holds a YouTube payload. *)
Definition sample_page : World :=
  mkWorld (mkAppState [] ∅ sample_stored "thread_20_k3j9x1q0z" false)
          (mkThread sample_transcript false) [].

(** The observer reports that the card left the viewport. *)
Definition out_of_view : IntersectionEntry := mkIntersectionEntry false 0.

(** * The rest of the components *)

(** ** More JavaScript primitives *)

Module JsExtra.

(** [Math.max] of two numbers. *)
Definition Math_max (a b : Q) : Q := if Qlt_le_dec a b then b else a.

(** [s.substring(0, n)]. *)
Definition substring0 (n : nat) (s : string) : string := String.substring 0 n s.

(** [c || 0] on a number that may be missing. *)
Definition or_zero (c : option Q) : Q :=
  match c with
  | Some q => q
  | None => 0
  end.

(** Truthiness of a number: every number but zero. *)
Definition truthy_number (z : Z) : bool := negb (z =? 0)%Z.

End JsExtra.

(** [Js.trimStart] on a list of characters. *)
Fixpoint drop_whitespace (l : list ascii) : list ascii :=
  match l with
  | [] => []
  | c :: r => if Js.is_whitespace c then drop_whitespace r else l
  end.

(** A string that is empty or made of white space only. *)
Definition blank (s : string) : bool :=
  forallb Js.is_whitespace (list_ascii_of_string s).

(** ** [App]: which events raise the finalize flag *)

(** The event reaches the [finalize_answer] branch of the chain: no node
    tested before it is present. *)
Definition raises_flag (event : RawEvent) : bool :=
  negb (present (classify_intent event)) && negb (present (youtube_action event)) &&
  negb (present (generate_query event)) && negb (present (web_research event)) &&
  negb (present (reflection event)) && present (finalize_answer event).

(** An action that cannot lead to an archival under the flag as it stands:
    a transport update, a submission, or the delivery of an event that does
    not raise the flag. *)
Definition quiet (a : Action) : Prop :=
  match a with
  | UserCancel => False
  | Deliver _ event => raises_flag event = false
  | UserSubmit _ _ _ _ | Transport _ => True
  end.

(** The raised flag is backed by a finalize event in the buffer. *)
Definition flag_backed (s : AppState) : Prop :=
  hasFinalizeEventOccurredRef s = true -> In finalize_event (processedEventsTimeline s).

(** Every archive entry sits under a non-empty identifier and holds a
    finalize event. *)
Definition entries_finalized (s : AppState) : Prop :=
  forall k events,
    historicalActivities s !! k = Some events ->
    k <> EmptyString /\ In finalize_event events.

Definition is_stop (c : TransportCall) : bool :=
  match c with
  | Stop => true
  | Submit _ => false
  end.

Definition is_cancel (a : Action) : bool :=
  match a with
  | UserCancel => true
  | _ => false
  end.

(** A submission action whose input passes the blank-input guard. *)
Definition is_submission (a : Action) : bool :=
  match a with
  | UserSubmit _ input _ _ => Js.truthy (Js.trim input)
  | _ => false
  end.

(** ** [ChatMessagesView]: keys, activity, the loading placeholder *)

(** The React key of a transcript entry:
    [`${message.id || `msg-${index}`}-${message.type}-${index}`]. *)
Definition message_key (index : nat) (message : Message.t) : string :=
  let shown := Js.Number_toString (Z.of_nat index) in
  let fallback := ("msg-" ++ shown)%string in
  let id_part :=
    match Message.id message with
    | Some i => Js.or_else i fallback
    | None => fallback
    end in
  (id_part ++ "-" ++ Message.type message ++ "-" ++ shown)%string.

(** The keys of [memoizedMessages], in transcript order. *)
Definition memoizedMessages_keys (messages : list Message.t) : list string :=
  imap message_key messages.

(** Whether an entry is drawn as the live, still loading activity. *)
Definition is_live (b : Bubble) : bool :=
  match b with
  | HumanMessageBubble _ => false
  | AiMessageBubble _ _ live _ => live
  end.


(** What the block after the entries shows while a turn loads. *)
Inductive Placeholder :=
| PlaceholderTimeline (events : list ProcessedEvent)
| PlaceholderSpinner.

(** The block [isLoading && (messages.length === 0 ||
    messages[messages.length - 1].type === "human")] of [ChatMessagesView]. *)
Definition loading_placeholder (messages : list Message.t) (isLoading : bool)
    (liveActivityEvents : list ProcessedEvent) : option Placeholder :=
  if isLoading &&
     ((length messages =? 0)%nat ||
      match lastMessage messages with
      | Some m => String.eqb (Message.type m) "human"
      | None => false
      end)
  then Some (if (0 <? length liveActivityEvents)%nat
             then PlaceholderTimeline liveActivityEvents
             else PlaceholderSpinner)
  else None.

(** ** [YouTubeResults]: the keys of the video cards *)

(** [`${video.video_id}-${results.timestamp || index}`]. *)
Definition video_card_key (results : StableResults.t) (index : nat)
    (video : YouTubeVideo.t) : string :=
  (YouTubeVideo.video_id video ++ "-" ++
   Js.Number_toString
     (if JsExtra.truthy_number (StableResults.timestamp results)
      then StableResults.timestamp results
      else Z.of_nat index))%string.

(** The keys of the cards the component maps over. *)
Definition video_card_keys (results : StableResults.t) : list string :=
  match StableResults.videos results with
  | Some vs => imap (video_card_key results) vs
  | None => []
  end.

(** ** [VoiceInput] *)

Module VoiceInput.

(** The objects of the Web Speech API the component reads.  [maxAlternatives]
    is set to 1 and the API gives every result at least one alternative, so
    a result is held with its first alternative [result[0]]. *)
Record SpeechRecognitionAlternative := mkAlternative {
  transcript : string;
  confidence : option Q;
}.

Record SpeechRecognitionResult := mkResult {
  first_alternative : SpeechRecognitionAlternative;
  isFinal : bool;
}.

Record SpeechRecognitionEvent := mkEvent {
  results : list SpeechRecognitionResult;
  resultIndex : nat;
}.

(** The props, with their defaults applied. *)
Record Props := mkProps {
  disabled : bool;
  language : string;
  continuous : bool;
}.

(** The state cells and refs of the component, the [finalTranscript]
    variable of the running recognition, and the texts handed to
    [onTranscription] so far, oldest first.  A ref is [true] while it holds
    an object. *)
Record State := mkState {
  isRecording : bool;
  isProcessing : bool;
  error : option string;
  isSupported : bool;
  confidence_cell : Q;
  recognitionRef : bool;
  streamRef : bool;
  timeoutRef : bool;
  finalTranscript : string;
  transcriptions : list string;
}.

(** The state on mount. *)
Definition initial : State :=
  mkState false false None false 0 false false false EmptyString [].

(** [checkSupport] and the effect that stores its result. *)
Definition checkSupport (hasGetUserMedia hasWebkitSpeechRecognition
                         hasSpeechRecognition : bool) : bool :=
  hasGetUserMedia && (hasWebkitSpeechRecognition || hasSpeechRecognition).

Definition on_mount (hasGetUserMedia hasWebkit hasStandard : bool) (s : State) : State :=
  mkState (isRecording s) (isProcessing s) (error s)
          (checkSupport hasGetUserMedia hasWebkit hasStandard) (confidence_cell s)
          (recognitionRef s) (streamRef s) (timeoutRef s)
          (finalTranscript s) (transcriptions s).

(** [cleanupResources]: every ref that holds something is released and set
    to [null]. *)
Definition cleanupResources (s : State) : State :=
  mkState (isRecording s) (isProcessing s) (error s) (isSupported s)
          (confidence_cell s) false false false
          (finalTranscript s) (transcriptions s).

(** The three setters that end a recognition, then the cleanup. *)
Definition finish (e : option string) (s : State) : State :=
  cleanupResources
    (mkState false false e (isSupported s) (confidence_cell s)
             (recognitionRef s) (streamRef s) (timeoutRef s)
             (finalTranscript s) (transcriptions s)).

(** [recognition.onstart]. *)
Definition onstart (s : State) : State :=
  mkState true false None (isSupported s) (confidence_cell s)
          (recognitionRef s) (streamRef s) (timeoutRef s)
          (finalTranscript s) (transcriptions s).

(** The loop of [recognition.onresult]: the transcripts of the final
    results from [resultIndex] on, concatenated, and the largest confidence
    among them. *)
Definition scan_step (acc : string * Q) (result : SpeechRecognitionResult) : string * Q :=
  if isFinal result
  then ((fst acc ++ transcript (first_alternative result))%string,
        JsExtra.Math_max (snd acc)
          (JsExtra.or_zero (confidence (first_alternative result))))
  else acc.

Definition scan (event : SpeechRecognitionEvent) : string * Q :=
  fold_left scan_step (drop (resultIndex event) (results event)) (EmptyString, 0%Q).

(** [recognition.onresult]. *)
Definition onresult (p : Props) (event : SpeechRecognitionEvent) (s : State) : State :=
  let '(transcript, maxConfidence) := scan event in
  if Js.truthy (Js.trim transcript)
  then mkState (isRecording s) (isProcessing s) (error s) (isSupported s)
               maxConfidence
               (recognitionRef s) (streamRef s) (timeoutRef s)
               (finalTranscript s ++ transcript)%string
               (if continuous p
                then transcriptions s ++ [Js.trim transcript]
                else transcriptions s)
  else s.

(** The [switch] of [recognition.onerror]. *)
Definition recognition_error_message (code : string) : string :=
  if String.eqb code "no-speech" then "No speech detected. Try speaking again."
  else if String.eqb code "audio-capture" then "Microphone not available"
  else if String.eqb code "not-allowed" then "Microphone access denied"
  else if String.eqb code "network" then "Network error occurred"
  else ("Recognition error: " ++ code)%string.

(** [recognition.onerror]. *)
Definition onerror (code : string) (s : State) : State :=
  finish (Some (recognition_error_message code)) s.

(** [recognition.onend]. *)
Definition onend (p : Props) (s : State) : State :=
  let sent :=
    if negb (continuous p) && Js.truthy (Js.trim (finalTranscript s))
    then transcriptions s ++ [Js.trim (finalTranscript s)]
    else transcriptions s in
  cleanupResources
    (mkState false false (error s) (isSupported s) (confidence_cell s)
             (recognitionRef s) (streamRef s) (timeoutRef s)
             (finalTranscript s) sent).

(** What the [catch] of [startRecording] can receive: an [Error] with its
    name and message, or a value that is no [Error]. *)
Inductive Thrown :=
| ThrownError (name message : string)
| ThrownOther.

(** The message the [catch] block of [startRecording] stores. *)
Definition start_error_message (err : Thrown) : string :=
  match err with
  | ThrownError name message =>
      if String.eqb name "NotAllowedError"
      then "Microphone access denied. Please allow microphone access and try again."
      else if String.eqb name "NotFoundError"
      then "No microphone found. Please connect a microphone and try again."
      else message
  | ThrownOther => "Failed to start recording"
  end.

(** How the awaited and the called parts of [startRecording] turn out: the
    microphone request is rejected; it is granted but the page has no
    recognition constructor; [recognition.start()] throws; or the
    recognition is started. *)
Inductive StartOutcome :=
| MediaRejected (err : Thrown)
| NoRecognition
| StartThrows (err : Thrown)
| Started.

Definition startRecording (p : Props) (outcome : StartOutcome) (s : State) : State :=
  let s1 := mkState (isRecording s) true None (isSupported s) (confidence_cell s)
                    (recognitionRef s) (streamRef s) (timeoutRef s)
                    (finalTranscript s) (transcriptions s) in
  let with_stream (s : State) :=
    mkState (isRecording s) (isProcessing s) (error s) (isSupported s)
            (confidence_cell s) (recognitionRef s) true (timeoutRef s)
            (finalTranscript s) (transcriptions s) in
  let with_recognition (s : State) :=
    mkState (isRecording s) (isProcessing s) (error s) (isSupported s)
            (confidence_cell s) true (streamRef s)
            (if negb (continuous p) then true else timeoutRef s)
            EmptyString (transcriptions s) in
  match outcome with
  | MediaRejected err => finish (Some (start_error_message err)) s1
  | NoRecognition =>
      finish (Some (start_error_message
                      (ThrownError "Error"
                         "Speech recognition not supported in this browser")))
             (with_stream s1)
  | StartThrows err =>
      finish (Some (start_error_message err)) (with_recognition (with_stream s1))
  | Started => with_recognition (with_stream s1)
  end.

(** [stopRecording]; [stop_throws] tells whether [recognition.stop()]
    throws. *)
Definition stopRecording (stop_throws : bool) (s : State) : State :=
  let s1 := mkState (isRecording s) true (error s) (isSupported s) (confidence_cell s)
                    (recognitionRef s) (streamRef s) (timeoutRef s)
                    (finalTranscript s) (transcriptions s) in
  if recognitionRef s1
  then if stop_throws then finish (error s1) s1 else s1
  else finish (error s1) s1.

(** *** What the component draws *)

(** [error && ..] in a condition: a stored message that is not empty. *)
Definition has_error (s : State) : bool :=
  match error s with
  | Some message => Js.truthy message
  | None => false
  end.

Definition getButtonColor (s : State) : string :=
  if isRecording s then "text-red-500 hover:text-red-400 hover:bg-red-500/10"
  else if isProcessing s then "text-yellow-500 hover:text-yellow-400 hover:bg-yellow-500/10"
  else if has_error s then "text-red-400 hover:text-red-300 hover:bg-red-500/10"
  else "text-neutral-400 hover:text-blue-400 hover:bg-blue-500/10".

Definition getButtonTitle (s : State) : string :=
  if isRecording s then "Stop recording (click to finish)"
  else if isProcessing s then "Processing speech..."
  else if has_error s then "Voice input error - click to retry"
  else "Start voice input".

Inductive Icon := Square | MicOff | AlertCircle | Mic.

Definition button_icon (s : State) : Icon :=
  if isRecording s then Square
  else if isProcessing s then MicOff
  else if has_error s then AlertCircle
  else Mic.

Inductive ClickHandler := ClickStops | ClickStarts.

Definition onClick (s : State) : ClickHandler :=
  if isRecording s then ClickStops else ClickStarts.

Definition button_disabled (p : Props) (s : State) : bool :=
  disabled p || isProcessing s.

(** The text of the error line:
    [error.length > 30 ? `${error.substring(0, 30)}...` : error]. *)
Definition error_text (message : string) : string :=
  if (30 <? String.length message)%nat
  then (JsExtra.substring0 30 message ++ "...")%string
  else message.

(** The four status lines under the button; [None] when a line is not
    drawn. *)
Definition recording_line (s : State) : option string :=
  if isRecording s then Some "Recording..." else None.

Definition starting_line (s : State) : option string :=
  if isProcessing s && negb (isRecording s) then Some "Starting..." else None.

Definition error_line (s : State) : option string :=
  if has_error s && negb (isRecording s) && negb (isProcessing s)
  then Some (error_text (match error s with Some m => m | None => EmptyString end))
  else None.

Definition confidence_line (s : State) : option string :=
  if (if Qlt_le_dec 0 (confidence_cell s) then true else false) &&
     negb (isRecording s) && negb (has_error s)
  then Some (Js.Number_toString (Js.Math_round (Qmult (confidence_cell s) (100 # 1)))
             ++ "% confident")%string
  else None.

(** What the component returns: nothing when the browser lacks the
    needed interfaces, and otherwise the button with the status lines that
    are drawn, top to bottom. *)
Record Rendered := mkRendered {
  icon : Icon;
  title : string;
  color : string;
  click : ClickHandler;
  is_disabled : bool;
  lines : list string;
}.

Definition render (p : Props) (s : State) : option Rendered :=
  if negb (isSupported s) then None
  else Some (mkRendered (button_icon s) (getButtonTitle s) (getButtonColor s)
               (onClick s) (button_disabled p s)
               (flat_map (fun line => match line with Some l => [l] | None => [] end)
                  [recording_line s; starting_line s; error_line s;
                   confidence_line s])).

(** What the recognition and the user can do to a mounted component. *)
Inductive Signal :=
| SigStart (outcome : StartOutcome)
| SigStop (stop_throws : bool)
| SigOnStart
| SigOnResult (event : SpeechRecognitionEvent)
| SigOnError (code : string)
| SigOnEnd.

Definition react (p : Props) (sig : Signal) (s : State) : State :=
  match sig with
  | SigStart outcome => startRecording p outcome s
  | SigStop stop_throws => stopRecording stop_throws s
  | SigOnStart => onstart s
  | SigOnResult event => onresult p event s
  | SigOnError code => onerror code s
  | SigOnEnd => onend p s
  end.

Definition react_all (p : Props) (sigs : list Signal) (s : State) : State :=
  fold_left (fun s sig => react p sig s) sigs s.

End VoiceInput.

(** *** Predicates on what [VoiceInput] hands out and takes in *)

(** A text that is not empty and has no white space at either end. *)
Definition clean_transcription (x : string) : Prop :=
  Js.truthy x = true /\ Js.trim x = x.

(** The text one result event contributes, if it is not blank. *)
Definition spoken (event : VoiceInput.SpeechRecognitionEvent) : list string :=
  let transcript := fst (VoiceInput.scan event) in
  if Js.truthy (Js.trim transcript) then [transcript] else [].

(** Every confidence the recognition reports in a signal is at most 1. *)
Definition confidences_at_most_one (sig : VoiceInput.Signal) : Prop :=
  match sig with
  | VoiceInput.SigOnResult event =>
      Forall (fun r => Qle (JsExtra.or_zero
                              (VoiceInput.confidence (VoiceInput.first_alternative r))) 1)
             (VoiceInput.results event)
  | _ => True
  end.

(** An [Error] that is neither of the two the [catch] block names and whose
    message is empty. *)
Definition silent_error (err : VoiceInput.Thrown) : Prop :=
  exists name,
    err = VoiceInput.ThrownError name EmptyString /\
    name <> "NotAllowedError" /\ name <> "NotFoundError".

(** * Properties *)

(** ** Reading the state after a setter *)

Lemma timeline_setProcessedEventsTimeline f s :
  processedEventsTimeline (setProcessedEventsTimeline f s) = f (processedEventsTimeline s).
Proof. reflexivity. Qed.

Lemma classify_keeps_timeline now event s :
  processedEventsTimeline (snd (classify now event s)) = processedEventsTimeline s.
Proof.
  unfold classify.
  repeat (match goal with |- context [match ?o with Some _ => _ | None => _ end] =>
            destruct o end; try reflexivity).
  destruct p; reflexivity.
Qed.

Lemma classify_keeps_archive now event s :
  historicalActivities (snd (classify now event s)) = historicalActivities s.
Proof.
  unfold classify.
  repeat (match goal with |- context [match ?o with Some _ => _ | None => _ end] =>
            destruct o end; try reflexivity).
  destruct p; reflexivity.
Qed.

Lemma onUpdateEvent_archive now event s :
  historicalActivities (onUpdateEvent now event s) = historicalActivities s.
Proof.
  unfold onUpdateEvent.
  pose proof (classify_keeps_archive now event s) as H.
  destruct (classify now event s) as [[e|] s1]; simpl in *; exact H.
Qed.

Lemma onUpdateEvent_timeline now event s :
  processedEventsTimeline (onUpdateEvent now event s) =
  processedEventsTimeline s ++
  match fst (classify now event s) with Some e => [e] | None => [] end.
Proof.
  unfold onUpdateEvent.
  pose proof (classify_keeps_timeline now event s) as H.
  destruct (classify now event s) as [[e|] s1]; simpl in *; rewrite H;
    [reflexivity | symmetry; apply app_nil_r].
Qed.

Lemma onUpdateEvent_youtube_kept now event s :
  forwards_payload event = false ->
  youtubeResults (onUpdateEvent now event s) = youtubeResults s.
Proof.
  unfold forwards_payload, onUpdateEvent, classify. intros H.
  destruct (classify_intent event); [reflexivity|].
  destruct (youtube_action event) as [ya|].
  - destruct (videos_found (youtube_results ya)) as [[r vs]|]; [|reflexivity].
    apply bool_decide_eq_false in H. exfalso. apply H. eauto.
  - repeat (match goal with |- context [match ?o with Some _ => _ | None => _ end] =>
              destruct o end; try reflexivity).
Qed.

Lemma videos_found_Some results r vs :
  videos_found results = Some (r, vs) ->
  results = Some r /\ YouTubeResults.videos r = Some vs /\ (0 < length vs)%nat.
Proof.
  unfold videos_found. destruct results as [r'|]; [|discriminate].
  destruct (YouTubeResults.videos r') as [vs'|] eqn:E; [|discriminate].
  destruct (0 <? length vs')%nat eqn:L; [|discriminate].
  intros [= <- <-]. apply Nat.ltb_lt in L. auto.
Qed.

Lemma onUpdateEvent_youtube_replaced now event s :
  forwards_payload event = true ->
  exists ya r vs,
    youtube_action event = Some ya /\ youtube_results ya = Some r /\
    YouTubeResults.videos r = Some vs /\ (0 < length vs)%nat /\
    youtubeResults (onUpdateEvent now event s) =
      Some (StableResults.mk r now (currentThreadId s)).
Proof.
  unfold forwards_payload, onUpdateEvent, classify. intros H.
  destruct (classify_intent event); [discriminate|].
  destruct (youtube_action event) as [ya|]; [|discriminate].
  destruct (videos_found (youtube_results ya)) as [[r vs]|] eqn:E.
  - apply videos_found_Some in E as (E1 & E2 & E3).
    exists ya, r, vs. simpl. auto.
  - apply bool_decide_eq_true in H. destruct H as [x Hx]. discriminate.
Qed.

(** ** The summary of a [web_research] event *)

Lemma filter_swap {A} (p q : A -> bool) xs :
  List.filter p (List.filter q xs) = List.filter q (List.filter p xs).
Proof.
  induction xs as [|x r IH]; simpl; [reflexivity|].
  destruct (q x) eqn:Qx, (p x) eqn:Px; simpl; rewrite ?Qx, ?Px, IH; reflexivity.
Qed.

Lemma filter_absorb {A} (p q : A -> bool) xs :
  (forall a, p a = true -> q a = true) ->
  List.filter p (List.filter q xs) = List.filter p xs.
Proof.
  intros H. induction xs as [|x r IH]; simpl; [reflexivity|].
  destruct (p x) eqn:Px.
  - rewrite (H _ Px). simpl. rewrite Px, IH. reflexivity.
  - destruct (q x); simpl; rewrite ?Px, IH; reflexivity.
Qed.

Lemma filter_both {A} (p q : A -> bool) xs :
  List.filter p (List.filter q xs) = List.filter (fun a => q a && p a) xs.
Proof.
  induction xs as [|x r IH]; simpl; [reflexivity|].
  destruct (q x); simpl; [destruct (p x)|]; rewrite IH; reflexivity.
Qed.

Lemma filter_first_occurrences (p : string -> bool) xs :
  List.filter p (first_occurrences xs) = first_occurrences (List.filter p xs).
Proof.
  induction xs as [|x r IH]; simpl; [reflexivity|].
  destruct (p x) eqn:Px; simpl.
  - f_equal. rewrite <- IH. apply filter_swap.
  - rewrite <- IH. apply filter_absorb.
    intros a Pa. destruct (String.eqb_spec a x) as [->|]; [congruence|reflexivity].
Qed.

(** Insertion into a [Set] one element at a time yields the first
    occurrences: the source's [uniqueLabels] refines the specification's
    list of distinct labels. *)
Lemma fold_Set_add xs : forall acc,
  fold_left Js.Set_add xs acc =
  acc ++ first_occurrences
           (List.filter (fun y => negb (existsb (String.eqb y) acc)) xs).
Proof.
  induction xs as [|x r IH]; intros acc; simpl.
  - symmetry. apply app_nil_r.
  - unfold Js.Set_add at 2. destruct (existsb (String.eqb x) acc) eqn:E; simpl.
    + apply IH.
    + rewrite IH, <- app_assoc. simpl. do 2 f_equal.
      rewrite filter_first_occurrences. f_equal.
      rewrite filter_both. apply List.filter_ext. intros a.
      rewrite existsb_app. simpl. rewrite orb_false_r, negb_orb.
      reflexivity.
Qed.

Lemma Set_of_first_occurrences xs : Js.Set_of xs = first_occurrences xs.
Proof.
  unfold Js.Set_of. rewrite fold_Set_add. simpl.
  f_equal. clear. induction xs as [|x r IH]; simpl; congruence.
Qed.

Lemma truthy_labels_nonempty_labels sources :
  truthy_labels sources = nonempty_labels sources.
Proof.
  unfold truthy_labels, nonempty_labels.
  induction sources as [|s r IH]; simpl; [reflexivity|].
  destruct (label s) as [l|]; simpl; [|exact IH].
  destruct l; simpl; rewrite IH; reflexivity.
Qed.

Lemma nonempty_labels_truthy sources l :
  In l (nonempty_labels sources) -> Js.truthy l = true.
Proof.
  unfold nonempty_labels. rewrite in_flat_map. intros (s & _ & H).
  destruct (label s) as [l'|]; [|contradiction].
  destruct l'; simpl in H; [contradiction|].
  destruct H as [<-|[]]. reflexivity.
Qed.

Lemma first_occurrences_In xs x : In x (first_occurrences xs) -> In x xs.
Proof.
  induction xs as [|y r IH]; simpl; [tauto|].
  intros [->|H]; [auto|]. apply List.filter_In in H as [H _]. auto.
Qed.

Lemma join_truthy sep x r : Js.truthy x = true -> Js.truthy (Js.join sep (x :: r)) = true.
Proof.
  intros H. destruct x as [|c x]; [discriminate|].
  unfold Js.join. simpl. destruct r; reflexivity.
Qed.

(** [exampleLabels || "N/A"] falls back exactly when there is no label to show. *)
Lemma exampleLabels_or_NA sources :
  Js.or_else (exampleLabels sources) "N/A" =
  match firstn 3 (first_occurrences (nonempty_labels sources)) with
  | [] => "N/A"
  | shown => String.concat ", " shown
  end.
Proof.
  unfold exampleLabels, uniqueLabels, Js.slice0.
  rewrite Set_of_first_occurrences, truthy_labels_nonempty_labels.
  destruct (first_occurrences (nonempty_labels sources)) as [|x r] eqn:E;
    [reflexivity|].
  change (firstn 3 (x :: r)) with (x :: firstn 2 r).
  unfold Js.or_else. rewrite join_truthy; [reflexivity|].
  apply (nonempty_labels_truthy sources), first_occurrences_In.
  rewrite E. left. reflexivity.
Qed.

(** C6. A [web_research] event appends one Progress event whose summary is
    the number of gathered sources followed by the first three distinct
    non-empty labels joined by a comma, or N/A when there is none; five
    sources labelled a, a, b, c, d give
    [Gathered 5 sources. Related to: a, b, c.] *)
Theorem C6_web_research_summary (now : Z) (event : RawEvent) (wr : WebResearch)
    (s : AppState) :
  is_web_research event wr ->
  onUpdateEvent now event s =
    setProcessedEventsTimeline
      (fun prev => prev ++ [mkProcessedEvent "Web Research"
                              (spec_web_research_summary (sources_of wr))]) s
  /\ (sources_of wr = example_sources ->
      processedEventsTimeline (onUpdateEvent now event s) =
        processedEventsTimeline s ++
        [mkProcessedEvent "Web Research" "Gathered 5 sources. Related to: a, b, c."]).
Proof.
  intros (H1 & H2 & H3 & H4).
  assert (E : onUpdateEvent now event s =
    setProcessedEventsTimeline
      (fun prev => prev ++ [mkProcessedEvent "Web Research"
                              (spec_web_research_summary (sources_of wr))]) s).
  { unfold onUpdateEvent, classify. rewrite H1, H2, H3, H4.
    unfold web_research_event, spec_web_research_summary.
    fold (sources_of wr). rewrite exampleLabels_or_NA. reflexivity. }
  split; [exact E|].
  intros Hs. rewrite E, Hs. reflexivity.
Qed.

Lemma C6_web_research_summary_witness :
  let event := mkRawEvent None None None
                 (Some (mkWebResearch (Some example_sources))) None None in
  processedEventsTimeline (onUpdateEvent 0 event initialAppState) =
    [mkProcessedEvent "Web Research" "Gathered 5 sources. Related to: a, b, c."].
Proof.
  intros event.
  refine (proj2 (C6_web_research_summary 0 event
                   (mkWebResearch (Some example_sources)) initialAppState _) _).
  - unfold is_web_research. simpl. auto.
  - reflexivity.
Defined.

(** ** The [youtube_action] branch *)

Lemma no_result_items_videos_found ya :
  no_result_items ya -> videos_found (youtube_results ya) = None.
Proof.
  unfold videos_found. intros [->|(r & -> & [->| ->])]; reflexivity.
Qed.

(** C8. A [youtube_action] event whose result list is empty or absent
    appends the Progress event that reports that no video was found and
    leaves the stored YouTube results exactly as they were; whenever any
    event changes the stored results, that event carried a result list
    with at least one item, and the stored value is that payload. *)
Theorem C8_empty_youtube_results_frame (now : Z) (event : RawEvent)
    (ya : YoutubeAction) (s : AppState) :
  is_youtube_action event ya ->
  no_result_items ya ->
  onUpdateEvent now event s =
    setProcessedEventsTimeline (fun prev => prev ++ [youtube_none_event]) s
  /\ youtubeResults (onUpdateEvent now event s) = youtubeResults s
  /\ (forall now' event' s',
        youtubeResults (onUpdateEvent now' event' s') <> youtubeResults s' ->
        exists ya' r vs,
          youtube_action event' = Some ya' /\ youtube_results ya' = Some r /\
          YouTubeResults.videos r = Some vs /\ (0 < length vs)%nat /\
          youtubeResults (onUpdateEvent now' event' s') =
            Some (StableResults.mk r now' (currentThreadId s'))).
Proof.
  intros [H1 H2] Hno.
  assert (E : onUpdateEvent now event s =
              setProcessedEventsTimeline (fun prev => prev ++ [youtube_none_event]) s).
  { unfold onUpdateEvent, classify.
    rewrite H1, H2, (no_result_items_videos_found _ Hno). reflexivity. }
  split; [exact E|]. split; [rewrite E; reflexivity|].
  intros now' event' s' Hchg.
  destruct (forwards_payload event') eqn:F.
  - apply onUpdateEvent_youtube_replaced. exact F.
  - exfalso. apply Hchg. apply onUpdateEvent_youtube_kept. exact F.
Qed.

Lemma C8_empty_youtube_results_frame_witness :
  let event := mkRawEvent None
                 (Some (mkYoutubeAction
                          (Some (YouTubeResults.mk (Some []) (Some "cats") (Some 0%Z)))))
                 None None None None in
  let stored := Some (StableResults.mk
                        (YouTubeResults.mk
                           (Some [YouTubeVideo.mk "v1" "t" "c" "d" "u" "1:00" "10" "2024"])
                           (Some "dogs") (Some 1%Z)) 7 "thread_7_abc") in
  let s := mkAppState [] ∅ stored "thread_7_abc" false in
  processedEventsTimeline (onUpdateEvent 8 event s) =
    [mkProcessedEvent "YouTube Search" "No videos found or YouTube not configured"]
  /\ youtubeResults (onUpdateEvent 8 event s) = stored.
Proof.
  intros event stored s.
  destruct (C8_empty_youtube_results_frame 8 event
              (mkYoutubeAction
                 (Some (YouTubeResults.mk (Some []) (Some "cats") (Some 0%Z)))) s)
    as (E & K & _).
  - split; reflexivity.
  - right. eexists. split; [reflexivity|]. right. reflexivity.
  - split; [rewrite E; reflexivity | exact K].
Defined.

(** ** What the archival effect leaves alone *)

Lemma archival_effect_youtube t s :
  youtubeResults (archival_effect t s) = youtubeResults s.
Proof.
  unfold archival_effect.
  destruct (_ && _ && _); [|reflexivity].
  destruct (archive_key (messages t)); reflexivity.
Qed.

Lemma archival_effect_timeline t s :
  processedEventsTimeline (archival_effect t s) = processedEventsTimeline s.
Proof.
  unfold archival_effect.
  destruct (_ && _ && _); [|reflexivity].
  destruct (archive_key (messages t)); reflexivity.
Qed.

Lemma archival_effect_thread_id t s :
  currentThreadId (archival_effect t s) = currentThreadId s.
Proof.
  unfold archival_effect.
  destruct (_ && _ && _); [|reflexivity].
  destruct (archive_key (messages t)); reflexivity.
Qed.

Lemma step_Deliver_youtube now event w :
  youtubeResults (app (step (Deliver now event) w)) =
  youtubeResults (onUpdateEvent now event (app w)).
Proof. unfold step, run_effects. simpl. apply archival_effect_youtube. Qed.

Lemma run_deliveries_youtube_kept (deliveries : list (Z * RawEvent)) : forall w,
  Forall (fun d => forwards_payload (snd d) = false) deliveries ->
  youtubeResults (app (run (map (fun d => Deliver (fst d) (snd d)) deliveries) w)) =
  youtubeResults (app w).
Proof.
  induction deliveries as [|[now event] ds IH]; intros w H; [reflexivity|].
  inversion H as [|? ? Hd Hds]; subst. simpl in *.
  unfold run in IH. rewrite IH by exact Hds.
  rewrite step_Deliver_youtube. apply onUpdateEvent_youtube_kept. exact Hd.
Qed.

(** ** Submission *)

Lemma handleSubmit_blank rt input effort model w :
  Js.truthy (Js.trim input) = false -> handleSubmit rt input effort model w = w.
Proof. unfold handleSubmit. intros ->. reflexivity. Qed.

Lemma handleSubmit_app rt input effort model w :
  submits input ->
  app (handleSubmit rt input effort model w) =
  mkAppState []
    (historicalActivities (app w))
    (if isLoading (thread w) then youtubeResults (app w) else None)
    ("thread_" ++ Js.Number_toString (now_thread rt) ++ "_" ++ random_digits rt)%string
    false.
Proof.
  unfold submits, handleSubmit. intros ->. simpl.
  destruct (effort_counts effort), (isLoading (thread w)); reflexivity.
Qed.

Lemma handleSubmit_outbox rt input effort model w :
  submits input ->
  outbox (handleSubmit rt input effort model w) =
  outbox w ++
  [Submit (mkSubmitValues
             (messages (thread w) ++
              [Message.mk "human" input (Some (Js.Number_toString (now_message rt)))])
             (fst (effort_counts effort)) (snd (effort_counts effort)) model)].
Proof.
  unfold submits, handleSubmit. intros ->. simpl.
  destruct (effort_counts effort). reflexivity.
Qed.

Lemma run_payload_kept (actions : list Action) : forall w,
  Forall keeps_payload actions ->
  youtubeResults (app (run actions w)) = youtubeResults (app w).
Proof.
  induction actions as [|a rest IH]; intros w H; [reflexivity|].
  inversion H as [|? ? Ha Hrest]; subst.
  change (run (a :: rest) w) with (run rest (step a w)).
  rewrite IH by exact Hrest.
  unfold step, run_effects. simpl. rewrite archival_effect_youtube.
  destruct a as [rt input effort model| |now event|t]; simpl in *;
    [contradiction|contradiction| |reflexivity].
  apply onUpdateEvent_youtube_kept. exact Ha.
Qed.

(** C7. A submission (input that passes the blank-input guard) clears the
    stored YouTube results when, and only when, the previous turn is no
    longer loading; when it is still loading the stored results stay as they
    are, and they keep staying so over every later transport update and
    event until an event arrives that carries a replacement payload.  Such
    an event stores its own payload, with at least one video, stamped with
    the clock and with the thread identifier its handler holds, whichever
    render that handler comes from. *)
Theorem C7_submit_clears_unless_loading (rt : Runtime) (input effort model : string)
    (w : World) :
  submits input ->
  let w' := handleSubmit rt input effort model w in
  (isLoading (thread w) = false -> youtubeResults (app w') = None)
  /\ (isLoading (thread w) = true ->
      youtubeResults (app w') = youtubeResults (app w)
      /\ forall actions : list Action,
           Forall keeps_payload actions ->
           youtubeResults (app (run actions w')) = youtubeResults (app w))
  /\ (forall closure_id now event t,
        forwards_payload event = true ->
        exists ya r vs,
          youtube_action event = Some ya /\ youtube_results ya = Some r /\
          YouTubeResults.videos r = Some vs /\ (0 < length vs)%nat /\
          youtubeResults
            (archival_effect t
               (onUpdateEvent now event (setCurrentThreadId closure_id (app w')))) =
            Some (StableResults.mk r now closure_id)).
Proof.
  intros Hin w'. subst w'.
  pose proof (handleSubmit_app rt input effort model w Hin) as E.
  split; [|split].
  - intros L. rewrite E, L. reflexivity.
  - intros L.
    assert (K : youtubeResults (app (handleSubmit rt input effort model w)) =
                youtubeResults (app w)) by (rewrite E, L; reflexivity).
    split; [exact K|].
    intros actions Hq. rewrite run_payload_kept by exact Hq. exact K.
  - intros closure_id now event t F. rewrite archival_effect_youtube.
    destruct (onUpdateEvent_youtube_replaced now event
                (setCurrentThreadId closure_id
                   (app (handleSubmit rt input effort model w))) F)
      as (ya & r & vs & Hya & Hr & Hv & Hl & Hy).
    exists ya, r, vs. auto.
Qed.

Lemma C7_submit_clears_unless_loading_witness :
  let stored := Some (StableResults.mk
                        (YouTubeResults.mk
                           (Some [YouTubeVideo.mk "v1" "t" "c" "d" "u" "1:00" "10" "2024"])
                           (Some "dogs") (Some 1%Z)) 7 "thread_7_abc") in
  let s := mkAppState [] ∅ stored "thread_7_abc" false in
  let rt := mkRuntime 20 "k3j9x1q0z" 21 in
  youtubeResults
    (app (handleSubmit rt "next question" "low" "gemini"
            (mkWorld s (mkThread [] false) []))) = None
  /\ youtubeResults
       (app (handleSubmit rt "next question" "low" "gemini"
               (mkWorld s (mkThread [] true) []))) = stored.
Proof.
  intros stored s rt. split.
  - apply (C7_submit_clears_unless_loading rt "next question" "low" "gemini"
             (mkWorld s (mkThread [] false) [])); reflexivity.
  - apply (C7_submit_clears_unless_loading rt "next question" "low" "gemini"
             (mkWorld s (mkThread [] true) [])); reflexivity.
Defined.

(** C10. With an effort value other than low, medium or high, the switch
    changes neither counter: every submission that call makes carries
    [initial_search_query_count = 0] and [max_research_loops = 0], and a
    call whose input passes the blank-input guard makes exactly one
    submission. *)
Theorem C10_unknown_effort_zero_counts (rt : Runtime) (input effort model : string)
    (w : World) :
  effort <> "low" -> effort <> "medium" -> effort <> "high" ->
  let w' := handleSubmit rt input effort model w in
  (Js.truthy (Js.trim input) = false -> outbox w' = outbox w)
  /\ (Js.truthy (Js.trim input) = true ->
      exists values,
        outbox w' = outbox w ++ [Submit values] /\
        initial_search_query_count values = 0%Z /\
        max_research_loops values = 0%Z /\
        reasoning_model values = model /\
        submit_messages values =
          messages (thread w) ++
          [Message.mk "human" input (Some (Js.Number_toString (now_message rt)))]).
Proof.
  intros Hl Hm Hh w'. subst w'.
  assert (E : effort_counts effort = (0, 0)%Z).
  { unfold effort_counts.
    destruct (String.eqb_spec effort "low"); [contradiction|].
    destruct (String.eqb_spec effort "medium"); [contradiction|].
    destruct (String.eqb_spec effort "high"); [contradiction|reflexivity]. }
  split.
  - intros B. rewrite handleSubmit_blank by exact B. reflexivity.
  - intros B. eexists. split; [apply handleSubmit_outbox; exact B|].
    rewrite E. simpl. auto.
Qed.

Lemma C10_unknown_effort_zero_counts_witness :
  outbox (handleSubmit (mkRuntime 20 "k3j9x1q0z" 21) "capital of France" "extreme"
            "gemini" (mkWorld initialAppState initialThread [])) =
  [Submit (mkSubmitValues [Message.mk "human" "capital of France" (Some "21")]
             0 0 "gemini")].
Proof.
  destruct (C10_unknown_effort_zero_counts (mkRuntime 20 "k3j9x1q0z" 21)
              "capital of France" "extreme" "gemini"
              (mkWorld initialAppState initialThread []))
    as [_ H]; try discriminate.
  destruct (H eq_refl) as (values & Ho & H1 & H2 & H3 & H4).
  rewrite Ho. destruct values as [ms c l m]. simpl in *. subst. reflexivity.
Defined.

(** ** The transition that archives a turn *)

Lemma terminal_ready_key t s i :
  terminal_ready t s i ->
  archive_key (messages t) = Some i /\ (0 <? length (messages t))%nat = true.
Proof.
  intros (_ & _ & m & Hm & Ht & Hi & Hne). split.
  - unfold archive_key. rewrite Hm, Ht, Hi. simpl.
    destruct i; [contradiction|reflexivity].
  - unfold lastMessage in Hm. apply lookup_lt_Some in Hm.
    apply Nat.ltb_lt. lia.
Qed.

Lemma archival_effect_ready t s i :
  terminal_ready t s i ->
  archival_effect t s =
  mkAppState (processedEventsTimeline s)
             (<[i := processedEventsTimeline s]> (historicalActivities s))
             (youtubeResults s) (currentThreadId s) false.
Proof.
  intros H. destruct (terminal_ready_key t s i H) as [K L].
  destruct H as (F & Ld & _).
  unfold archival_effect. rewrite F, Ld, L, K. reflexivity.
Qed.

Lemma archival_effect_flag_down t s :
  hasFinalizeEventOccurredRef s = false -> archival_effect t s = s.
Proof. unfold archival_effect. intros ->. reflexivity. Qed.

Lemma archival_effect_loading t s :
  isLoading t = true -> archival_effect t s = s.
Proof.
  unfold archival_effect. intros ->. rewrite andb_false_r. reflexivity.
Qed.




(** ** At most one archive entry per message *)

Lemma step_Deliver_app now event w :
  app (step (Deliver now event) w) =
  archival_effect (thread w) (onUpdateEvent now event (app w)).
Proof. reflexivity. Qed.

(** C2, as stated, fails: the finalize event arrives during the stream and
    the turn is archived when the stream ends; the same event delivered once
    more archives the turn again under the same identifier and replaces the
    entry. *)
Lemma C2_second_finalize_rearchives :
  let buffered := processedEventsTimeline (app streaming_world) in
  let w1 := run [Deliver 23 finalize_only; Transport finished_turn_thread]
                streaming_world in
  let w2 := step (Deliver 24 finalize_only) w1 in
  historicalActivities (app w1) !! "m1" = Some (buffered ++ [finalize_event]) /\
  historicalActivities (app w2) !! "m1" =
    Some (buffered ++ [finalize_event; finalize_event]) /\
  historicalActivities (app w2) <> historicalActivities (app w1).
Proof.
  set (buffered := processedEventsTimeline (app streaming_world)).
  assert (E1 : historicalActivities
                 (app (run [Deliver 23 finalize_only; Transport finished_turn_thread]
                           streaming_world)) =
               <["m1" := buffered ++ [finalize_event]]> ∅) by reflexivity.
  assert (E2 : historicalActivities
                 (app (step (Deliver 24 finalize_only)
                         (run [Deliver 23 finalize_only; Transport finished_turn_thread]
                              streaming_world))) =
               <["m1" := buffered ++ [finalize_event; finalize_event]]>
                 (<["m1" := buffered ++ [finalize_event]]> ∅)) by reflexivity.
  cbv zeta. rewrite E2, E1. rewrite !lookup_insert_eq.
  split; [reflexivity|]. split; [reflexivity|].
  intros Heq. apply (f_equal (fun m => m !! "m1")) in Heq.
  rewrite !lookup_insert_eq in Heq. discriminate.
Qed.

(** ** Records with missing sub-fields *)

(** C5, as stated, fails: an intent-classification record that lacks both
    of its sub-fields is not ignored; a Progress event built from the
    missing values is appended to the buffer. *)
Lemma C5_malformed_record_appended :
  processedEventsTimeline (onUpdateEvent 0 bare_classify_intent initialAppState) =
    [mkProcessedEvent "Analyzing Intent" "Detected: undefined (NaN% confidence)"]
  /\ onUpdateEvent 0 bare_classify_intent initialAppState <> initialAppState.
Proof. split; [reflexivity|discriminate]. Qed.

(** C5 (amended). Classification is total: no record makes it raise.  A
    record is ignored (no event appended, no state cell changed) exactly when
    it names none of the known nodes.  A record that names a node is
    classified as Progress whether or not the node's sub-fields are there:
    one event is appended, and with every sub-field missing its summary is
    built from the fallback values. *)
Theorem C5_missing_fields_still_progress (now : Z) (event : RawEvent) (s : AppState) :
  (recognized event = false -> onUpdateEvent now event s = s)
  /\ (recognized event = true ->
      exists e, fst (classify now event s) = Some e /\
                processedEventsTimeline (onUpdateEvent now event s) =
                  processedEventsTimeline s ++ [e] /\
                historicalActivities (onUpdateEvent now event s) =
                  historicalActivities s)
  /\ fst (classify now bare_classify_intent s) =
       Some (mkProcessedEvent "Analyzing Intent" "Detected: undefined (NaN% confidence)")
  /\ classify now bare_youtube_action s = (Some youtube_none_event, s)
  /\ fst (classify now bare_generate_query s) =
       Some (mkProcessedEvent "Generating Search Queries" EmptyString)
  /\ fst (classify now bare_web_research s) =
       Some (mkProcessedEvent "Web Research" "Gathered 0 sources. Related to: N/A.")
  /\ fst (classify now bare_reflection s) =
       Some (mkProcessedEvent "Reflection"
               "Need more information, searching for additional information").
Proof.
  split; [|split; [|repeat split]].
  - unfold recognized, onUpdateEvent, classify.
    destruct (classify_intent event); [discriminate|].
    destruct (youtube_action event); [discriminate|].
    destruct (generate_query event); [discriminate|].
    destruct (web_research event); [discriminate|].
    destruct (reflection event); [discriminate|].
    destruct (finalize_answer event); [discriminate|reflexivity].
  - intros R.
    assert (exists e, fst (classify now event s) = Some e) as [e He].
    { unfold recognized in R. unfold classify.
      destruct (classify_intent event); [eauto|].
      destruct (youtube_action event) as [ya|].
      { destruct (videos_found (youtube_results ya)) as [[r vs]|]; eauto. }
      destruct (generate_query event); [eauto|].
      destruct (web_research event); [eauto|].
      destruct (reflection event); [eauto|].
      destruct (finalize_answer event); [eauto|discriminate]. }
    exists e. split; [exact He|].
    rewrite onUpdateEvent_timeline, He, onUpdateEvent_archive. auto.
Qed.

Lemma C5_missing_fields_still_progress_witness :
  onUpdateEvent 0 unrecognized_event initialAppState = initialAppState
  /\ processedEventsTimeline (onUpdateEvent 0 bare_reflection initialAppState) =
       [mkProcessedEvent "Reflection"
          "Need more information, searching for additional information"].
Proof.
  pose proof (C5_missing_fields_still_progress 0 unrecognized_event initialAppState)
    as (Hi & _).
  pose proof (C5_missing_fields_still_progress 0 bare_reflection initialAppState)
    as (_ & Hp & _).
  split; [apply Hi; reflexivity|].
  destruct (Hp eq_refl) as (e & He & Ht & _).
  rewrite Ht. simpl in He. injection He as <-. reflexivity.
Defined.

(** ** Cancellation *)

(** C4, as stated, fails: an event of the cancelled turn that arrives after
    the cancellation is processed like any other; it is appended to the
    buffer and its payload is stored.  This is so on the reloaded page and
    already on the page as the setters of the handler leave it. *)
Lemma C4_stale_event_processed :
  let w' := step UserCancel streaming_world in
  let before_reload := handleCancel_setters streaming_world in
  currentThreadId (app w') = EmptyString
  /\ processedEventsTimeline (app w') = []
  /\ youtubeResults (app w') = None
  /\ processedEventsTimeline (app (step (Deliver 40 youtube_update) w')) =
       [youtube_found_event sample_results [sample_video]]
  /\ youtubeResults (app (step (Deliver 40 youtube_update) w')) =
       Some (StableResults.mk sample_results 40 EmptyString)
  /\ processedEventsTimeline (app (step (Deliver 40 youtube_update) before_reload)) =
       processedEventsTimeline (app streaming_world) ++
       [youtube_found_event sample_results [sample_video]]
  /\ youtubeResults (app (step (Deliver 40 youtube_update) before_reload)) =
       Some (StableResults.mk sample_results 40 EmptyString).
Proof. repeat split. Qed.

(** C4 (amended). Cancellation calls the transport's stop operation, clears
    the stored YouTube results, sets the thread identifier to the empty
    string and reloads the page, after which every state cell has its
    initial value: the buffer is empty and no archive entry has been added.
    Up to the reload the archive is untouched.  The event handler compares
    no identifier: what it appends does not depend on the current thread
    identifier, and an event delivered after the cancellation is classified
    and appended like any other. *)
Theorem C4_cancel_resets_no_event_gate (w : World) :
  let w' := handleCancel w in
  outbox w' = outbox w ++ [Stop]
  /\ app w' = initialAppState
  /\ thread w' = initialThread
  /\ step UserCancel w = w'
  /\ (forall k, is_Some (historicalActivities (app w') !! k) ->
                is_Some (historicalActivities (app w) !! k))
  /\ (youtubeResults (app (handleCancel_setters w)) = None /\
      currentThreadId (app (handleCancel_setters w)) = EmptyString /\
      historicalActivities (app (handleCancel_setters w)) = historicalActivities (app w))
  /\ (forall now event tid s,
        fst (classify now event (setCurrentThreadId tid s)) = fst (classify now event s))
  /\ (forall now event,
        processedEventsTimeline (app (step (Deliver now event) w')) =
        match fst (classify now event initialAppState) with
        | Some e => [e]
        | None => []
        end).
Proof.
  intros w'. subst w'.
  do 4 (split; [reflexivity|]).
  split.
  { intros k [x Hx]. simpl in Hx. rewrite lookup_empty in Hx. discriminate. }
  split; [repeat split|].
  split.
  { intros now event tid s. unfold classify.
    repeat (match goal with |- context [match ?o with Some _ => _ | None => _ end] =>
              destruct o end; try reflexivity).
    destruct p; reflexivity. }
  intros now event. rewrite step_Deliver_app, archival_effect_timeline.
  rewrite onUpdateEvent_timeline. reflexivity.
Qed.

Lemma C4_cancel_resets_no_event_gate_witness :
  outbox (handleCancel streaming_world) = [Stop]
  /\ app (handleCancel streaming_world) = initialAppState.
Proof.
  destruct (C4_cancel_resets_no_event_gate streaming_world) as (Ho & Ha & _).
  split; [exact Ho | exact Ha].
Defined.

(** ** Archive entries over the rest of the session *)

Lemma archival_effect_other_key t s k :
  archive_key (messages t) <> Some k ->
  historicalActivities (archival_effect t s) !! k = historicalActivities s !! k.
Proof.
  intros Hk. unfold archival_effect.
  destruct (_ && _ && _); [|reflexivity].
  destruct (archive_key (messages t)) as [i|]; [|reflexivity].
  simpl. unfold record_archive. apply lookup_insert_ne. congruence.
Qed.

Lemma handle_thread_clear k a w :
  keeps_clear_of k a ->
  archive_key (messages (thread w)) <> Some k ->
  archive_key (messages (thread (handle a w))) <> Some k.
Proof.
  destruct a as [rt input effort model| |now event|t]; simpl; try tauto.
  intros _ H. unfold handleSubmit.
  destruct (negb (Js.truthy (Js.trim input))); [exact H|].
  destruct (effort_counts effort). exact H.
Qed.

Lemma two_turns_archive :
  historicalActivities (app (run (turn_A ++ turn_B) fresh_page)) =
  <["m2" := [finalize_event]]> (<["m1" := turn_A_events]> ∅).
Proof. reflexivity. Qed.

(** C9, as stated, fails: after both turns are archived, a cancellation
    reloads the page and the entry of the first turn is gone. *)
Lemma C9_cancel_drops_archive :
  let w := run (turn_A ++ turn_B) fresh_page in
  historicalActivities (app w) !! "m1" = Some turn_A_events
  /\ is_Some (historicalActivities (app w) !! "m2")
  /\ historicalActivities (app (step UserCancel w)) !! "m1" = None.
Proof.
  cbv zeta. rewrite two_turns_archive. split; [|split].
  - rewrite lookup_insert_ne by discriminate. apply lookup_insert_eq.
  - rewrite lookup_insert_eq. eauto.
  - apply lookup_empty.
Qed.

Lemma archive_key_nonempty ms i : archive_key ms = Some i -> (0 <? length ms)%nat = true.
Proof.
  unfold archive_key, lastMessage. destruct (ms !! (length ms - 1)%nat) eqn:E; [|discriminate].
  intros _. apply lookup_lt_Some in E. apply Nat.ltb_lt. lia.
Qed.

Lemma run_effects_other_entry k w :
  archives_under k w = false ->
  historicalActivities (app (run_effects w)) !! k = historicalActivities (app w) !! k.
Proof.
  unfold archives_under, run_effects, archival_effect. simpl. intros H.
  destruct (hasFinalizeEventOccurredRef (app w)); [|reflexivity].
  destruct (isLoading (thread w)); [reflexivity|]. simpl in *.
  destruct (archive_key (messages (thread w))) as [i|] eqn:K.
  - rewrite (archive_key_nonempty _ _ K). simpl. unfold record_archive.
    apply lookup_insert_ne. intros ->. rewrite String.eqb_refl in H. discriminate.
  - destruct (0 <? length (messages (thread w)))%nat; reflexivity.
Qed.

Lemma handle_archive_kept a w :
  a <> UserCancel ->
  historicalActivities (app (handle a w)) = historicalActivities (app w).
Proof.
  destruct a as [rt input effort model| |now event|t]; simpl; try tauto.
  - intros _. unfold handleSubmit.
    destruct (negb (Js.truthy (Js.trim input))); [reflexivity|].
    destruct (effort_counts effort), (isLoading (thread w)); reflexivity.
  - intros _. apply onUpdateEvent_archive.
Qed.

(** When the transcript does not end with the message [k], and no transport
    update makes it end so, no archival is made under [k]. *)
Lemma keeps_clear_leaves_alone k actions : forall w,
  Forall (keeps_clear_of k) actions ->
  archive_key (messages (thread w)) <> Some k ->
  leaves_entry_alone k actions w.
Proof.
  induction actions as [|a rest IH]; intros w Hall Hw; simpl; [exact I|].
  inversion Hall as [|? ? Ha Hrest]; subst.
  pose proof (handle_thread_clear k a w Ha Hw) as Ht.
  split; [intros ->; exact Ha|]. split.
  - unfold archives_under.
    destruct (archive_key (messages (thread (handle a w)))) as [i|];
      [|apply andb_false_r].
    destruct (String.eqb_spec i k) as [->|]; [congruence|apply andb_false_r].
  - apply IH; [exact Hrest|]. exact Ht.
Qed.

(** C9 (amended). Over every later run of submissions, event deliveries and
    transport updates, together with the archivals they trigger, the archive
    returns for the first turn's message [m1] exactly what it returned
    before, as long as no archival is made under [m1] itself; that is the
    case whenever the transcript no longer ends with that message.
    Cancellation is excluded: it reloads the page and the archive starts
    over empty. *)
Theorem C9_archive_entry_stable (m1 : string) (actions : list Action) (w : World) :
  leaves_entry_alone m1 actions w ->
  historicalActivities (app (run actions w)) !! m1 =
  historicalActivities (app w) !! m1.
Proof.
  revert w. induction actions as [|a rest IH]; intros w H; [reflexivity|].
  destruct H as (Ha & Hk & Hrest).
  change (run (a :: rest) w) with (run rest (step a w)).
  rewrite IH by exact Hrest.
  unfold step. rewrite run_effects_other_entry by exact Hk.
  rewrite handle_archive_kept by exact Ha. reflexivity.
Qed.

Lemma C9_archive_entry_stable_witness :
  historicalActivities (app (run turn_B (run turn_A fresh_page))) !! "m1" =
  historicalActivities (app (run turn_A fresh_page)) !! "m1".
Proof.
  apply (C9_archive_entry_stable "m1" turn_B (run turn_A fresh_page)).
  simpl. repeat split; discriminate.
Defined.

(** ** Where the YouTube results are displayed *)

Lemma YouTubeResults_renders_has_videos youtubeResults isVisible :
  YouTubeResults_renders youtubeResults isVisible =
  has_videos youtubeResults && isVisible.
Proof.
  unfold YouTubeResults_renders, has_videos.
  destruct youtubeResults as [r|]; [|reflexivity].
  destruct (StableResults.videos r) as [[|v vs]|]; reflexivity.
Qed.

Lemma ChatMessagesView_lookup messages isLoading live archive youtubeResults isVisible
    index :
  youtube_on <$>
    (ChatMessagesView messages isLoading live archive youtubeResults isVisible !! index) =
  displayed_at messages youtubeResults isVisible index <$> (messages !! index).
Proof.
  unfold ChatMessagesView. rewrite list_lookup_imap.
  destruct (messages !! index) as [m|]; [|reflexivity]. simpl. f_equal.
  unfold displayed_at, render_AiMessageBubble, shouldShowYouTube.
  destruct (String.eqb (Message.type m) "human").
  { simpl. rewrite andb_false_r. reflexivity. }
  simpl. destruct (index =? length messages - 1)%nat; simpl; [|reflexivity].
  rewrite YouTubeResults_renders_has_videos. fold (has_videos youtubeResults).
  destruct (has_videos youtubeResults), isVisible; reflexivity.
Qed.

(** C1, as stated, fails: two renders of one page (same transcript, same
    stores, same loading flag) differ; the payload is on screen when the
    card mounts and off screen once the observer reports the card out of
    the viewport. *)
Lemma C1_display_depends_on_viewport :
  let mounted := on_results_change (youtubeResults (app sample_page)) true in
  let hidden := on_intersection (youtubeResults (app sample_page)) out_of_view mounted in
  map youtube_on (view sample_page mounted) = [None; sample_stored]
  /\ map youtube_on (view sample_page hidden) = [None; None].
Proof. split; reflexivity. Qed.

(** C1 (amended). In a rendered transcript of N messages the YouTube
    payload is displayed on no entry but entry N, and there exactly when
    that entry is not a human message, the stored payload has at least one
    video, and the visibility cell of the results card is set; what is
    displayed is the stored payload.  Whether it is displayed is a function
    of the transcript, the stored payload and that visibility cell: the
    loading flag, the buffer and the archive play no part, and two renders
    that agree on those three display the same. *)
Theorem C1_youtube_display_gate (ms : list Message.t) (isLoading : bool)
    (live : list ProcessedEvent) (archive : gmap string (list ProcessedEvent))
    (stored : option StableResults.t) (isVisible : bool) (index : nat) (b : Bubble) :
  ChatMessagesView ms isLoading live archive stored isVisible !! index = Some b ->
  exists m,
    ms !! index = Some m
    /\ youtube_on b = displayed_at ms stored isVisible index m
    /\ (youtube_on b <> None ->
        S index = length ms /\ Message.type m <> "human" /\
        has_videos stored = true /\ isVisible = true /\ youtube_on b = stored)
    /\ (S index = length ms -> Message.type m <> "human" ->
        has_videos stored = true -> isVisible = true -> youtube_on b = stored)
    /\ (forall isLoading' live' archive' b',
          ChatMessagesView ms isLoading' live' archive' stored isVisible !! index = Some b' ->
          youtube_on b' = youtube_on b).
Proof.
  intros Hb.
  pose proof (ChatMessagesView_lookup ms isLoading live archive stored isVisible index) as L.
  rewrite Hb in L. simpl in L.
  destruct (ms !! index) as [m|] eqn:Hm; [|discriminate].
  simpl in L. injection L as L. exists m.
  split; [reflexivity|]. split; [exact L|].
  pose proof (lookup_lt_Some _ _ _ Hm) as Hlt.
  split; [|split].
  - rewrite L. unfold displayed_at.
    destruct (index =? length ms - 1)%nat eqn:E1; simpl; [|congruence].
    destruct (String.eqb_spec (Message.type m) "human"); simpl; [congruence|].
    destruct (has_videos stored); simpl; [|congruence].
    destruct isVisible; simpl; [|congruence].
    intros _. apply Nat.eqb_eq in E1. repeat split; try assumption. lia.
  - intros Hlast Hty Hv Hvis. rewrite L. unfold displayed_at.
    replace (index =? length ms - 1)%nat with true
      by (symmetry; apply Nat.eqb_eq; lia).
    destruct (String.eqb_spec (Message.type m) "human"); [contradiction|].
    rewrite Hv, Hvis. reflexivity.
  - intros isLoading' live' archive' b' Hb'.
    pose proof (ChatMessagesView_lookup ms isLoading' live' archive' stored isVisible index)
      as L'.
    rewrite Hb', Hm in L'. simpl in L'. injection L' as L'.
    rewrite L, L'. reflexivity.
Qed.

Lemma C1_youtube_display_gate_witness :
  youtube_on
    (AiMessageBubble (Message.mk "ai" "Here you go." (Some "m1")) None false sample_stored)
  = sample_stored.
Proof.
  assert (Hb : ChatMessagesView sample_transcript false [] ∅ sample_stored true !! 1%nat =
               Some (AiMessageBubble (Message.mk "ai" "Here you go." (Some "m1"))
                                     None false sample_stored))
    by (vm_compute; reflexivity).
  destruct (C1_youtube_display_gate sample_transcript false [] ∅ sample_stored true 1
              _ Hb) as (m & Hm & _ & _ & Hshow & _).
  injection Hm as <-.
  apply Hshow; [reflexivity | discriminate | reflexivity | reflexivity].
Defined.

(** * Further properties of the components *)

(** ** Strings as lists of characters *)

Lemma chars_app (a b : string) :
  list_ascii_of_string (a ++ b)%string =
  list_ascii_of_string a ++ list_ascii_of_string b.
Proof. induction a as [|c a IH]; simpl; [reflexivity|]. rewrite IH. reflexivity. Qed.

Lemma chars_inj (a b : string) :
  list_ascii_of_string a = list_ascii_of_string b -> a = b.
Proof.
  intros H. rewrite <- (string_of_list_ascii_of_string a),
                    <- (string_of_list_ascii_of_string b), H. reflexivity.
Qed.

Lemma chars_rev_app (a b : string) :
  list_ascii_of_string (String.rev_app a b) =
  rev (list_ascii_of_string a) ++ list_ascii_of_string b.
Proof.
  revert b. induction a as [|c a IH]; intros b; simpl; [reflexivity|].
  rewrite IH. simpl. rewrite <- app_assoc. reflexivity.
Qed.

Lemma chars_rev (a : string) :
  list_ascii_of_string (String.rev a) = rev (list_ascii_of_string a).
Proof. unfold String.rev. rewrite chars_rev_app. simpl. apply app_nil_r. Qed.

Lemma chars_trimStart (s : string) :
  list_ascii_of_string (Js.trimStart s) = drop_whitespace (list_ascii_of_string s).
Proof.
  induction s as [|c s IH]; simpl; [reflexivity|].
  destruct (Js.is_whitespace c); [exact IH|reflexivity].
Qed.

Lemma chars_trim (s : string) :
  list_ascii_of_string (Js.trim s) =
  rev (drop_whitespace (rev (drop_whitespace (list_ascii_of_string s)))).
Proof.
  unfold Js.trim, Js.trimEnd.
  rewrite chars_rev, chars_trimStart, chars_rev, chars_trimStart. reflexivity.
Qed.

Lemma truthy_chars (s : string) :
  Js.truthy s = false <-> list_ascii_of_string s = [].
Proof. destruct s; simpl; split; congruence. Qed.

(** ** White space at the ends *)

Lemma drop_whitespace_nil l :
  drop_whitespace l = [] <-> forallb Js.is_whitespace l = true.
Proof.
  induction l as [|c r IH]; simpl; [tauto|].
  destruct (Js.is_whitespace c); simpl; [exact IH|]. split; discriminate.
Qed.

Lemma drop_whitespace_head l c r :
  drop_whitespace l = c :: r -> Js.is_whitespace c = false.
Proof.
  induction l as [|d l IH]; simpl; [discriminate|].
  destruct (Js.is_whitespace d) eqn:E; [exact IH|].
  intros [= <- _]. exact E.
Qed.

Lemma drop_whitespace_suffix l :
  exists p, l = p ++ drop_whitespace l /\ forallb Js.is_whitespace p = true.
Proof.
  induction l as [|c r (p & Hp & Hw)]; simpl; [exists []; auto|].
  destruct (Js.is_whitespace c) eqn:E.
  - exists (c :: p). simpl. rewrite E, Hw. split; [congruence|reflexivity].
  - exists []. auto.
Qed.

Lemma drop_whitespace_fixed c r :
  Js.is_whitespace c = false -> drop_whitespace (c :: r) = c :: r.
Proof. simpl. intros ->. reflexivity. Qed.

Lemma forallb_rev {A} (f : A -> bool) l : forallb f (rev l) = forallb f l.
Proof.
  induction l as [|x r IH]; simpl; [reflexivity|].
  rewrite forallb_app, IH. simpl. rewrite andb_true_r. apply andb_comm.
Qed.

(** The characters of a trimmed string: empty, or a word that neither
    starts nor ends with white space, cut out of the middle of the input. *)
Lemma trim_chars_shape (l : list ascii) :
  let t := rev (drop_whitespace (rev (drop_whitespace l))) in
  (forallb Js.is_whitespace l = true /\ t = []) \/
  (exists c m d before after,
      (t = [c] \/ t = c :: m ++ [d]) /\
      Js.is_whitespace c = false /\ Js.is_whitespace d = false /\
      (t = [c] -> d = c) /\
      l = before ++ t ++ after /\
      forallb Js.is_whitespace before = true /\
      forallb Js.is_whitespace after = true).
Proof.
  intros t. subst t.
  destruct (drop_whitespace_suffix l) as (before & Hl & Hb).
  destruct (drop_whitespace l) as [|c r] eqn:E.
  - left. split; [apply drop_whitespace_nil; exact E|reflexivity].
  - right. pose proof (drop_whitespace_head _ _ _ E) as Hc.
    destruct (drop_whitespace_suffix (rev (c :: r))) as (p & Hp & Hw).
    destruct (drop_whitespace (rev (c :: r))) as [|d u] eqn:F.
    { apply drop_whitespace_nil in F. rewrite forallb_rev in F.
      simpl in F. rewrite Hc in F. discriminate. }
    pose proof (drop_whitespace_head _ _ _ F) as Hd.
    assert (Hcr : c :: r = rev u ++ [d] ++ rev p).
    { rewrite <- (rev_involutive (c :: r)), Hp, rev_app_distr. simpl.
      rewrite <- app_assoc. reflexivity. }
    assert (Hpw : forallb Js.is_whitespace (rev p) = true)
      by (rewrite forallb_rev; exact Hw).
    change (rev (d :: u)) with (rev u ++ [d]).
    destruct (rev u) as [|c' m] eqn:U; simpl in Hcr.
    + injection Hcr as Hcd Hr. subst d.
      exists c, [], c, before, (rev p). simpl.
      split; [left; reflexivity|]. do 3 (split; [auto|]).
      split; [rewrite Hl, Hr; reflexivity|]. auto.
    + injection Hcr as Hcc Hr. subst c'.
      exists c, m, d, before, (rev p). simpl.
      split; [right; reflexivity|]. do 2 (split; [auto|]).
      split; [intros [= Hm]; destruct m; discriminate|].
      split; [rewrite Hl, Hr, <- app_assoc; reflexivity|]. auto.
Qed.

Lemma trim_fixed_chars c m d :
  Js.is_whitespace c = false -> Js.is_whitespace d = false ->
  rev (drop_whitespace (rev (drop_whitespace (c :: m ++ [d])))) = c :: m ++ [d].
Proof.
  intros Hc Hd. rewrite (drop_whitespace_fixed c _ Hc).
  change (c :: m ++ [d]) with ((c :: m) ++ [d]).
  rewrite rev_unit, (drop_whitespace_fixed d _ Hd), <- rev_unit.
  apply rev_involutive.
Qed.

Lemma trim_fixed_char c :
  Js.is_whitespace c = false ->
  rev (drop_whitespace (rev (drop_whitespace [c]))) = [c].
Proof. intros Hc. simpl. rewrite Hc. simpl. rewrite Hc. reflexivity. Qed.

(** [trim] leaves nothing exactly of the strings made of white space. *)
Lemma trim_blank (s : string) : Js.truthy (Js.trim s) = false <-> blank s = true.
Proof.
  rewrite truthy_chars, chars_trim. unfold blank.
  destruct (trim_chars_shape (list_ascii_of_string s))
    as [[Hw Ht]|(c & m & d & before & after & Ht & Hc & Hd & _ & Hl & Hb & Ha)].
  - rewrite Ht, Hw. tauto.
  - split.
    + intros H. rewrite H in Ht. destruct Ht as [Ht|Ht]; discriminate.
    + intros H. rewrite Hl in H. rewrite !forallb_app in H.
      apply andb_prop in H as [_ H]. apply andb_prop in H as [H _].
      destruct Ht as [Ht|Ht]; rewrite Ht in H; simpl in H; rewrite Hc in H;
        discriminate.
Qed.

(** A trimmed string is left as it is by [trim]. *)
Lemma trim_idempotent (s : string) : Js.trim (Js.trim s) = Js.trim s.
Proof.
  apply chars_inj. rewrite (chars_trim (Js.trim s)).
  destruct (trim_chars_shape (list_ascii_of_string s))
    as [[_ Ht]|(c & m & d & _ & _ & Ht & Hc & Hd & _)];
    rewrite <- chars_trim in Ht.
  - rewrite Ht. reflexivity.
  - destruct Ht as [Ht|Ht]; rewrite Ht.
    + apply trim_fixed_char. exact Hc.
    + apply trim_fixed_chars; assumption.
Qed.

(** ** [App]: events and the finalize flag *)

Lemma classify_flag now event s :
  hasFinalizeEventOccurredRef (snd (classify now event s)) =
  hasFinalizeEventOccurredRef s || raises_flag event.
Proof.
  unfold classify, raises_flag.
  destruct (classify_intent event); simpl; [symmetry; apply orb_false_r|].
  destruct (youtube_action event) as [ya|]; simpl.
  { destruct (videos_found (youtube_results ya)) as [[r vs]|]; simpl;
      symmetry; apply orb_false_r. }
  destruct (generate_query event); simpl; [symmetry; apply orb_false_r|].
  destruct (web_research event); simpl; [symmetry; apply orb_false_r|].
  destruct (reflection event); simpl; [symmetry; apply orb_false_r|].
  destruct (finalize_answer event); simpl;
    [symmetry; apply orb_true_r | symmetry; apply orb_false_r].
Qed.

Lemma onUpdateEvent_flag now event s :
  hasFinalizeEventOccurredRef (onUpdateEvent now event s) =
  hasFinalizeEventOccurredRef s || raises_flag event.
Proof.
  unfold onUpdateEvent. pose proof (classify_flag now event s) as H.
  destruct (classify now event s) as [[e|] s1]; simpl in *; exact H.
Qed.

Lemma classify_thread_id now event s :
  currentThreadId (snd (classify now event s)) = currentThreadId s.
Proof.
  unfold classify.
  repeat (match goal with |- context [match ?o with Some _ => _ | None => _ end] =>
            destruct o end; try reflexivity).
  destruct p; reflexivity.
Qed.

Lemma raises_flag_event now event s :
  raises_flag event = true -> fst (classify now event s) = Some finalize_event.
Proof.
  unfold raises_flag, classify.
  destruct (classify_intent event); [discriminate|].
  destruct (youtube_action event); [discriminate|].
  destruct (generate_query event); [discriminate|].
  destruct (web_research event); [discriminate|].
  destruct (reflection event); [discriminate|].
  destruct (finalize_answer event); [reflexivity|discriminate].
Qed.

(** X1. An update event never lowers the finalize flag and raises it
    exactly when it reaches the [finalize_answer] branch: a
    [finalize_answer] node that shares its update with any node tested
    earlier leaves the flag as it was.  No event changes the thread
    identifier or the archive. *)
Theorem event_raises_flag_only_on_finalize_branch (now : Z) (event : RawEvent)
    (s : AppState) :
  let s' := onUpdateEvent now event s in
  hasFinalizeEventOccurredRef s' = hasFinalizeEventOccurredRef s || raises_flag event
  /\ (present (finalize_answer event) = true ->
      (present (classify_intent event) || present (youtube_action event) ||
       present (generate_query event) || present (web_research event) ||
       present (reflection event)) = true ->
      hasFinalizeEventOccurredRef s' = hasFinalizeEventOccurredRef s /\
      ~ In finalize_event
          (match fst (classify now event s) with Some e => [e] | None => [] end))
  /\ currentThreadId s' = currentThreadId s
  /\ historicalActivities s' = historicalActivities s.
Proof.
  intros s'. subst s'. split; [apply onUpdateEvent_flag|]. split; [|split].
  - intros _ Hother. rewrite onUpdateEvent_flag.
    assert (R : raises_flag event = false).
    { unfold raises_flag.
      destruct (present (classify_intent event)), (present (youtube_action event)),
        (present (generate_query event)), (present (web_research event)),
        (present (reflection event)); simpl in *; try reflexivity; discriminate. }
    rewrite R, orb_false_r. split; [reflexivity|].
    unfold classify.
    destruct (classify_intent event); [simpl; intros [H|[]]; discriminate|].
    destruct (youtube_action event) as [ya|].
    { destruct (videos_found (youtube_results ya)) as [[r vs]|];
        simpl; intros [H|[]]; discriminate. }
    destruct (generate_query event); [simpl; intros [H|[]]; discriminate|].
    destruct (web_research event); [simpl; intros [H|[]]; discriminate|].
    destruct (reflection event); [simpl; intros [H|[]]; discriminate|].
    simpl in Hother. discriminate.
  - unfold onUpdateEvent. pose proof (classify_thread_id now event s) as H.
    destruct (classify now event s) as [[e|] s1]; simpl in *; exact H.
  - apply onUpdateEvent_archive.
Qed.

Lemma event_raises_flag_only_on_finalize_branch_witness :
  let event := mkRawEvent None None None None (Some (mkReflection (Some true) None))
                          (Some mkFinalizeAnswer) in
  hasFinalizeEventOccurredRef (onUpdateEvent 0 event initialAppState) = false.
Proof.
  intros event.
  destruct (event_raises_flag_only_on_finalize_branch 0 event initialAppState)
    as (_ & H & _).
  destruct (H eq_refl eq_refl) as [Hf _]. exact Hf.
Defined.

(** ** [App]: the summary of a reflection *)

Lemma join_empty sep qs :
  Js.truthy sep = true ->
  Js.truthy (Js.join sep qs) = false <-> qs = [] \/ qs = [EmptyString].
Proof.
  intros Hsep. unfold Js.join. split.
  - destruct qs as [|q [|q' r]]; simpl; auto.
    + destruct q; [auto|discriminate].
    + destruct q; simpl; [|discriminate].
      destruct sep; [discriminate|]. simpl. discriminate.
  - intros [-> | ->]; reflexivity.
Qed.

(** X2. For a reflection that is not marked sufficient the summary names
    the follow-up queries joined by a comma; the fallback text
    [additional information] stands in exactly when the list is missing,
    empty, or holds the empty string alone. *)
Theorem reflection_summary_fallback (r : Reflection) :
  is_sufficient r <> Some true ->
  data (reflection_event r) =
  ("Need more information, searching for " ++
   match follow_up_queries r with
   | None | Some [] | Some [EmptyString] => "additional information"
   | Some qs => String.concat ", " qs
   end)%string
  /\ (Js.truthy (match follow_up_queries r with
                 | Some qs => Js.join ", " qs
                 | None => EmptyString
                 end) = false <->
      follow_up_queries r = None \/ follow_up_queries r = Some [] \/
      follow_up_queries r = Some [EmptyString]).
Proof.
  intros Hs. unfold reflection_event. simpl.
  assert (E : forall qs, Js.truthy (Js.join ", " qs) = false <->
                         qs = [] \/ qs = [EmptyString])
    by (intros qs; apply join_empty; reflexivity).
  split.
  - destruct (is_sufficient r) as [[|]|]; [congruence| |];
      (destruct (follow_up_queries r) as [qs|]; [|reflexivity];
       unfold Js.or_else;
       destruct (Js.truthy (Js.join ", " qs)) eqn:T;
       [ destruct qs as [|q [|q' rest]];
           [ discriminate
           | destruct q; [discriminate|reflexivity]
           | destruct q; reflexivity ]
       | apply E in T as [-> | ->]; reflexivity ]).
  - destruct (follow_up_queries r) as [qs|].
    + rewrite E. split.
      * intros [-> | ->]; auto.
      * intros [H|[H|H]]; [discriminate| |]; injection H as ->; auto.
    + split; auto.
Qed.

Lemma reflection_summary_fallback_witness :
  data (reflection_event (mkReflection (Some false) (Some [EmptyString]))) =
    "Need more information, searching for additional information"
  /\ data (reflection_event (mkReflection None (Some [EmptyString; EmptyString]))) =
    "Need more information, searching for , ".
Proof.
  split.
  - apply (reflection_summary_fallback (mkReflection (Some false) (Some [EmptyString]))).
    discriminate.
  - apply (reflection_summary_fallback
             (mkReflection None (Some [EmptyString; EmptyString]))).
    discriminate.
Defined.

(** ** [App]: submission *)

(** X3. A submission that passes the blank-input guard sends one config
    whose counters come from the effort table: 1 and 1 for low, 3 and 3 for
    medium, 5 and 10 for high; whatever the effort, the query count is at
    least 0 and at most the loop count, which is at most 10, and the model
    is passed through unchanged. *)
Theorem submit_effort_table (rt : Runtime) (input effort model : string) (w : World) :
  submits input ->
  exists values,
    outbox (handleSubmit rt input effort model w) = outbox w ++ [Submit values]
    /\ (effort = "low" ->
        initial_search_query_count values = 1%Z /\ max_research_loops values = 1%Z)
    /\ (effort = "medium" ->
        initial_search_query_count values = 3%Z /\ max_research_loops values = 3%Z)
    /\ (effort = "high" ->
        initial_search_query_count values = 5%Z /\ max_research_loops values = 10%Z)
    /\ (0 <= initial_search_query_count values <= max_research_loops values)%Z
    /\ (max_research_loops values <= 10)%Z
    /\ reasoning_model values = model.
Proof.
  intros Hin. eexists. split; [apply handleSubmit_outbox; exact Hin|]. simpl.
  split; [intros ->; split; reflexivity|].
  split; [intros ->; split; reflexivity|].
  split; [intros ->; split; reflexivity|].
  unfold effort_counts.
  destruct (String.eqb effort "low"); [simpl; repeat split; lia|].
  destruct (String.eqb effort "medium"); [simpl; repeat split; lia|].
  destruct (String.eqb effort "high"); simpl; repeat split; lia.
Qed.

Lemma submit_effort_table_witness :
  outbox (handleSubmit (mkRuntime 20 "k3j9x1q0z" 21) "capital of France" "high"
            "gemini" fresh_page) =
  [Submit (mkSubmitValues [Message.mk "human" "capital of France" (Some "21")]
             5 10 "gemini")].
Proof.
  destruct (submit_effort_table (mkRuntime 20 "k3j9x1q0z" 21) "capital of France"
              "high" "gemini" fresh_page eq_refl)
    as (values & Ho & _ & _ & Hh & _ & _ & Hm).
  destruct (Hh eq_refl) as [H1 H2].
  rewrite Ho. simpl in Ho. injection Ho as <-. reflexivity.
Defined.

(** X4. [handleSubmit] leaves the page exactly as it was (no state cell
    changed, nothing sent) if and only if the input is empty or made only of
    characters [trim] removes: tab, line feed, vertical tab, form feed,
    carriage return, space and no-break space. *)
Theorem submit_noop_iff_blank (rt : Runtime) (input effort model : string) (w : World) :
  handleSubmit rt input effort model w = w <-> blank input = true.
Proof.
  rewrite <- trim_blank. split.
  - intros H. destruct (Js.truthy (Js.trim input)) eqn:T; [|reflexivity].
    exfalso. apply (f_equal (fun w => length (outbox w))) in H.
    rewrite (handleSubmit_outbox rt input effort model w T) in H.
    rewrite length_app in H. simpl in H. lia.
  - apply handleSubmit_blank.
Qed.

Lemma submit_noop_iff_blank_witness :
  let tab := String "009"%char EmptyString in
  let nbsp := String "160"%char EmptyString in
  handleSubmit (mkRuntime 20 "k3j9x1q0z" 21) (" " ++ tab ++ nbsp ++ " ")%string
    "low" "gemini" streaming_world = streaming_world.
Proof.
  intros tab nbsp.
  apply (submit_noop_iff_blank (mkRuntime 20 "k3j9x1q0z" 21)
           (" " ++ tab ++ nbsp ++ " ")%string "low" "gemini" streaming_world).
  reflexivity.
Defined.

(** ** [App]: what holds over every run *)

Lemma archive_key_truthy ms i : archive_key ms = Some i -> i <> EmptyString.
Proof.
  unfold archive_key. destruct (lastMessage ms) as [m|]; [|discriminate].
  destruct (String.eqb (Message.type m) "ai"); [|discriminate].
  destruct (Message.id m) as [j|]; [|discriminate].
  destruct j; simpl; [discriminate|]. intros [= <-]. discriminate.
Qed.

(** The three outcomes of the archival effect. *)
Lemma archival_effect_cases t s :
  archival_effect t s = s
  \/ (hasFinalizeEventOccurredRef s = true /\ archive_key (messages t) = None /\
      archival_effect t s = setHasFinalizeEventOccurred false s)
  \/ (exists i,
        hasFinalizeEventOccurredRef s = true /\ isLoading t = false /\
        archive_key (messages t) = Some i /\
        archival_effect t s =
          mkAppState (processedEventsTimeline s)
                     (<[i := processedEventsTimeline s]> (historicalActivities s))
                     (youtubeResults s) (currentThreadId s) false).
Proof.
  unfold archival_effect.
  destruct (hasFinalizeEventOccurredRef s) eqn:F; [|auto].
  destruct (isLoading t) eqn:L; [auto|].
  destruct (0 <? length (messages t))%nat eqn:N; [|auto]. simpl.
  destruct (archive_key (messages t)) as [i|] eqn:K.
  - right. right. exists i. auto.
  - right. left. auto.
Qed.

Lemma step_archive_cases a w :
  a <> UserCancel ->
  historicalActivities (app (step a w)) = historicalActivities (app w)
  \/ exists i,
       i <> EmptyString /\
       hasFinalizeEventOccurredRef (app (handle a w)) = true /\
       historicalActivities (app (step a w)) =
         <[i := processedEventsTimeline (app (handle a w))]>
           (historicalActivities (app w)).
Proof.
  intros Ha. unfold step, run_effects. simpl.
  destruct (archival_effect_cases (thread (handle a w)) (app (handle a w)))
    as [E|[(_ & _ & E)|(i & F & _ & K & E)]]; rewrite E.
  - left. apply handle_archive_kept. exact Ha.
  - left. simpl. apply handle_archive_kept. exact Ha.
  - right. exists i. split; [exact (archive_key_truthy _ _ K)|].
    split; [exact F|]. simpl. rewrite (handle_archive_kept a w Ha). reflexivity.
Qed.

(** X5. As long as the user does not cancel, an identifier that has an
    archive entry keeps having one: no submission, event, transport update
    or archival removes an entry. *)
Theorem archive_ids_persist (actions : list Action) (w : World) (k : string) :
  Forall (fun a => a <> UserCancel) actions ->
  is_Some (historicalActivities (app w) !! k) ->
  is_Some (historicalActivities (app (run actions w)) !! k).
Proof.
  revert w. induction actions as [|a rest IH]; intros w Hall Hk; [exact Hk|].
  inversion Hall as [|? ? Ha Hrest]; subst.
  change (run (a :: rest) w) with (run rest (step a w)).
  apply IH; [exact Hrest|].
  destruct (step_archive_cases a w Ha) as [E|(i & _ & _ & E)]; rewrite E;
    [exact Hk|].
  destruct (decide (i = k)) as [->|Hne].
  - rewrite lookup_insert_eq. eauto.
  - rewrite lookup_insert_ne by exact Hne. exact Hk.
Qed.

Lemma archive_ids_persist_witness :
  is_Some (historicalActivities (app (run turn_B (run turn_A fresh_page))) !! "m1").
Proof.
  apply (archive_ids_persist turn_B (run turn_A fresh_page) "m1").
  - repeat constructor; discriminate.
  - exists turn_A_events. reflexivity.
Defined.

Lemma handle_flag_backed a w :
  flag_backed (app w) -> flag_backed (app (handle a w)).
Proof.
  unfold flag_backed.
  destruct a as [rt input effort model| |now event|t]; simpl; auto.
  - unfold handleSubmit.
    destruct (negb (Js.truthy (Js.trim input))); [auto|].
    destruct (effort_counts effort), (isLoading (thread w)); simpl; discriminate.
  - discriminate.
  - intros H. rewrite onUpdateEvent_flag, onUpdateEvent_timeline.
    intros F. apply in_or_app.
    destruct (raises_flag event) eqn:R.
    + right. rewrite (raises_flag_event now event (app w) R). left. reflexivity.
    + left. apply H. rewrite orb_false_r in F. exact F.
Qed.

Lemma handle_entries_finalized a w :
  entries_finalized (app w) -> entries_finalized (app (handle a w)).
Proof.
  assert (Ha : a = UserCancel \/ a <> UserCancel)
    by (destruct a; [right|left|right|right]; try reflexivity; discriminate).
  destruct Ha as [->|Ha].
  - intros _ k events H. simpl in H. rewrite lookup_empty in H. discriminate.
  - unfold entries_finalized. rewrite (handle_archive_kept a w Ha). auto.
Qed.

Lemma run_effects_sound w :
  flag_backed (app w) -> entries_finalized (app w) ->
  flag_backed (app (run_effects w)) /\ entries_finalized (app (run_effects w)).
Proof.
  intros Hf He. unfold run_effects. simpl.
  destruct (archival_effect_cases (thread w) (app w))
    as [E|[(_ & _ & E)|(i & F & _ & K & E)]]; rewrite E.
  - auto.
  - split; [intros H; discriminate | exact He].
  - split; [intros H; discriminate|].
    intros k events. simpl.
    destruct (decide (i = k)) as [->|Hne].
    + rewrite lookup_insert_eq. intros [= <-].
      split; [exact (archive_key_truthy _ _ K) | exact (Hf F)].
    + rewrite lookup_insert_ne by exact Hne. apply He.
Qed.

Lemma run_sound actions : forall w,
  flag_backed (app w) -> entries_finalized (app w) ->
  flag_backed (app (run actions w)) /\ entries_finalized (app (run actions w)).
Proof.
  induction actions as [|a rest IH]; intros w Hf He; [auto|].
  change (run (a :: rest) w) with (run rest (step a w)).
  destruct (run_effects_sound (handle a w)
              (handle_flag_backed a w Hf) (handle_entries_finalized a w He)).
  apply IH; assumption.
Qed.

(** X6. On a page that started fresh, whatever the user and the transport
    do, every archive entry sits under a non-empty identifier and contains
    the Finalizing Answer event: a turn is archived only with the finalize
    event of that turn in its buffer. *)
Theorem archive_entries_hold_finalize (actions : list Action) (k : string)
    (events : list ProcessedEvent) :
  historicalActivities (app (run actions fresh_page)) !! k = Some events ->
  k <> EmptyString /\ In finalize_event events.
Proof.
  apply (run_sound actions fresh_page).
  - intros H. discriminate.
  - intros k' events' H. simpl in H. rewrite lookup_empty in H. discriminate.
Qed.

Lemma archive_entries_hold_finalize_witness :
  In finalize_event turn_A_events.
Proof.
  apply (archive_entries_hold_finalize (turn_A ++ turn_B) "m1" turn_A_events).
  rewrite two_turns_archive.
  rewrite lookup_insert_ne by discriminate. apply lookup_insert_eq.
Defined.

Lemma handle_youtube_has_videos a w :
  (youtubeResults (app w) = None \/ has_videos (youtubeResults (app w)) = true) ->
  youtubeResults (app (handle a w)) = None \/
  has_videos (youtubeResults (app (handle a w))) = true.
Proof.
  intros H. destruct a as [rt input effort model| |now event|t]; simpl; auto.
  - unfold handleSubmit.
    destruct (negb (Js.truthy (Js.trim input))); [exact H|].
    destruct (effort_counts effort), (isLoading (thread w)); simpl; auto.
  - destruct (forwards_payload event) eqn:F.
    + destruct (onUpdateEvent_youtube_replaced now event (app w) F)
        as (ya & r & vs & _ & _ & Hv & Hl & E).
      right. rewrite E. unfold has_videos, StableResults.videos. simpl.
      rewrite Hv. apply Nat.ltb_lt. exact Hl.
    + rewrite (onUpdateEvent_youtube_kept now event (app w) F). exact H.
Qed.

Lemma run_youtube_has_videos actions : forall w,
  (youtubeResults (app w) = None \/ has_videos (youtubeResults (app w)) = true) ->
  youtubeResults (app (run actions w)) = None \/
  has_videos (youtubeResults (app (run actions w))) = true.
Proof.
  induction actions as [|a rest IH]; intros w H; [exact H|].
  change (run (a :: rest) w) with (run rest (step a w)).
  apply IH. unfold step, run_effects. simpl. rewrite archival_effect_youtube.
  apply handle_youtube_has_videos. exact H.
Qed.

(** X7. On a page that started fresh, whatever the user and the transport
    do, the stored YouTube results are either absent or hold at least one
    video; so the last entry of the transcript, when it is not a human
    message, displays the stored results whenever there are any and the
    card is visible. *)
Theorem stored_results_never_empty (actions : list Action) (isVisible : bool)
    (index : nat) (m : Message.t) :
  let w := run actions fresh_page in
  (youtubeResults (app w) = None \/ has_videos (youtubeResults (app w)) = true)
  /\ (S index = length (messages (thread w)) ->
      messages (thread w) !! index = Some m ->
      Message.type m <> "human" ->
      youtube_on <$> (view w isVisible !! index) =
        Some (if isVisible then youtubeResults (app w) else None)).
Proof.
  intros w. subst w.
  pose proof (run_youtube_has_videos actions fresh_page (or_introl eq_refl)) as H.
  split; [exact H|].
  intros Hlast Hm Hty. unfold view. rewrite ChatMessagesView_lookup, Hm. simpl.
  f_equal. unfold displayed_at.
  replace (index =? length (messages (thread (run actions fresh_page))) - 1)%nat
    with true by (symmetry; apply Nat.eqb_eq; lia).
  destruct (String.eqb_spec (Message.type m) "human"); [contradiction|]. simpl.
  destruct H as [-> | ->]; destruct isVisible; reflexivity.
Qed.

Lemma stored_results_never_empty_witness :
  let actions := turn_A ++ [Deliver 40 youtube_update] in
  youtube_on <$> (view (run actions fresh_page) true !! 1%nat) =
    Some (Some (StableResults.mk sample_results 40 "thread_20_k3j9x1q0z")).
Proof.
  intros actions.
  refine (proj2 (stored_results_never_empty actions true 1
                   (Message.mk "ai" "Paris." (Some "m1"))) _ _ _);
    [reflexivity | reflexivity | discriminate].
Defined.

Lemma handle_outbox a w :
  exists new,
    outbox (handle a w) = outbox w ++ new /\
    (length new <= 1)%nat /\
    length (List.filter is_stop new) = (if is_cancel a then 1 else 0)%nat /\
    length new - length (List.filter is_stop new) =
      (if is_submission a then 1 else 0)%nat.
Proof.
  destruct a as [rt input effort model| |now event|t]; simpl.
  - unfold handleSubmit. destruct (Js.truthy (Js.trim input)); simpl.
    + destruct (effort_counts effort). eexists. simpl. split; [reflexivity|].
      simpl. auto.
    + exists []. rewrite app_nil_r. simpl. auto.
  - exists [Stop]. simpl. auto.
  - exists []. rewrite app_nil_r. simpl. auto.
  - exists []. rewrite app_nil_r. simpl. auto.
Qed.

(** X8. The calls made on the transport are only ever added to: after any
    run the calls made before are still there, in order, followed by one
    [stop] for each cancellation and one [submit] for each submission whose
    input passes the blank-input guard, and by nothing else. *)
Theorem outbox_append_only (actions : list Action) (w : World) :
  exists new,
    outbox (run actions w) = outbox w ++ new
    /\ length (List.filter is_stop new) = length (List.filter is_cancel actions)
    /\ length new =
       (length (List.filter is_cancel actions) +
        length (List.filter is_submission actions))%nat.
Proof.
  revert w. induction actions as [|a rest IH]; intros w.
  - exists []. rewrite app_nil_r. auto.
  - change (run (a :: rest) w) with (run rest (step a w)).
    destruct (IH (step a w)) as (new2 & E2 & S2 & L2).
    destruct (handle_outbox a w) as (new1 & E1 & B1 & S1 & L1).
    exists (new1 ++ new2).
    change (outbox (step a w)) with (outbox (handle a w)) in E2.
    rewrite E2, E1, <- app_assoc. split; [reflexivity|].
    rewrite List.filter_app, !length_app, S2, L2. simpl.
    pose proof (List.filter_length_le is_stop new1) as Hle.
    destruct a as [rt input effort model| |now event|t]; simpl in *;
      try (destruct (Js.truthy (Js.trim input))); simpl; split; lia.
Qed.

Lemma run_quiet_flag_down actions : forall w,
  Forall quiet actions ->
  hasFinalizeEventOccurredRef (app w) = false ->
  historicalActivities (app (run actions w)) = historicalActivities (app w).
Proof.
  induction actions as [|a rest IH]; intros w Hall F; [reflexivity|].
  inversion Hall as [|? ? Ha Hrest]; subst.
  change (run (a :: rest) w) with (run rest (step a w)).
  assert (Hh : hasFinalizeEventOccurredRef (app (handle a w)) = false).
  { destruct a as [rt input effort model| |now event|t]; simpl in *.
    - unfold handleSubmit.
      destruct (negb (Js.truthy (Js.trim input))); [exact F|].
      destruct (effort_counts effort), (isLoading (thread w)); reflexivity.
    - contradiction.
    - rewrite onUpdateEvent_flag, F, Ha. reflexivity.
    - exact F. }
  assert (Hs : app (step a w) = app (handle a w)).
  { unfold step, run_effects. simpl. apply archival_effect_flag_down. exact Hh. }
  rewrite IH; [|exact Hrest|rewrite Hs; exact Hh].
  rewrite Hs. apply handle_archive_kept.
  destruct a; simpl in Ha; [discriminate|contradiction|discriminate|discriminate].
Qed.

(** C2 (amended). The archive is a map, so it never holds two entries for
    one identifier; archiving under an identifier that already has an entry
    replaces that entry with the current buffer, adds no entry and touches
    no other one.  Each archival lowers the flag, so one raising of the flag
    archives once: after it the effect does nothing whatever the transport
    shows, and no transport update, submission or event archives anything
    until an event raises the flag again.  While the transport is loading no
    delivery archives, so finalize events repeated during the stream lead to
    one archival. *)
Theorem C2_archive_entry_replaced (t : Thread) (s : AppState) (i : string) :
  terminal_ready t s i ->
  let s' := archival_effect t s in
  historicalActivities s' !! i = Some (processedEventsTimeline s)
  /\ (forall j, j <> i -> historicalActivities s' !! j = historicalActivities s !! j)
  /\ (is_Some (historicalActivities s !! i) ->
      size (historicalActivities s') = size (historicalActivities s))
  /\ (historicalActivities s !! i = None ->
      size (historicalActivities s') = S (size (historicalActivities s)))
  /\ hasFinalizeEventOccurredRef s' = false
  /\ (forall t', archival_effect t' s' = s')
  /\ (forall t' sent actions,
        Forall quiet actions ->
        historicalActivities (app (run actions (mkWorld s' t' sent))) =
        historicalActivities s')
  /\ (forall now event w,
        isLoading (thread w) = true ->
        historicalActivities (app (step (Deliver now event) w)) =
        historicalActivities (app w)).
Proof.
  intros H s'. subst s'. rewrite (archival_effect_ready t s i H).
  cbn [historicalActivities hasFinalizeEventOccurredRef].
  split; [apply lookup_insert_eq|].
  split; [intros j Hj; apply lookup_insert_ne; congruence|].
  split.
  { intros [old Hold].
    rewrite <- (insert_delete_id (historicalActivities s) i old Hold) at 2.
    rewrite <- (insert_delete_eq (historicalActivities s)).
    rewrite !map_size_insert_None by apply lookup_delete_eq. reflexivity. }
  split; [intros Hn; apply map_size_insert_None; exact Hn|].
  split; [reflexivity|].
  split; [intros t'; apply archival_effect_flag_down; reflexivity|].
  split.
  { intros t' sent actions Hq.
    rewrite run_quiet_flag_down; [reflexivity|exact Hq|reflexivity]. }
  intros now event w L. rewrite step_Deliver_app.
  rewrite archival_effect_loading by exact L. apply onUpdateEvent_archive.
Qed.

Lemma C2_archive_entry_replaced_witness :
  let s := mkAppState [finalize_event; finalize_event]
                      (<["m1" := [finalize_event]]> ∅) None EmptyString true in
  historicalActivities (archival_effect finished_turn_thread s) !! "m1" =
    Some [finalize_event; finalize_event]
  /\ hasFinalizeEventOccurredRef (archival_effect finished_turn_thread s) = false.
Proof.
  intros s.
  destruct (C2_archive_entry_replaced finished_turn_thread s "m1")
    as (Hl & _ & _ & _ & Hf & _); [ready|].
  split; [exact Hl | exact Hf].
Defined.

(** X9. Between a submission and the next event that raises the finalize
    flag nothing is archived: a submission lowers the flag, and no transport
    update, further submission or other event can make the archival effect
    write an entry until a finalize event of the new turn arrives. *)
Theorem no_archival_before_finalize (rt : Runtime) (input effort model : string)
    (actions : list Action) (w : World) :
  submits input ->
  Forall quiet actions ->
  historicalActivities (app (run (UserSubmit rt input effort model :: actions) w)) =
  historicalActivities (app w).
Proof.
  intros Hin Hq.
  change (run (UserSubmit rt input effort model :: actions) w)
    with (run actions (step (UserSubmit rt input effort model) w)).
  assert (Hs : app (step (UserSubmit rt input effort model) w) =
               app (handleSubmit rt input effort model w)).
  { unfold step, run_effects. simpl. apply archival_effect_flag_down.
    rewrite handleSubmit_app by exact Hin. reflexivity. }
  rewrite run_quiet_flag_down; [|exact Hq|].
  - rewrite Hs, handleSubmit_app by exact Hin. reflexivity.
  - rewrite Hs, handleSubmit_app by exact Hin. reflexivity.
Qed.

Lemma no_archival_before_finalize_witness :
  let pending := mkWorld finished_turn_state (mkThread [] true) [] in
  historicalActivities
    (app (run [UserSubmit (mkRuntime 50 "p0o9i8u7y" 51) "and of Italy" "low" "gemini";
               Transport finished_turn_thread;
               Deliver 52 bare_reflection] pending)) = ∅.
Proof.
  intros pending.
  apply (no_archival_before_finalize (mkRuntime 50 "p0o9i8u7y" 51) "and of Italy"
           "low" "gemini"
           [Transport finished_turn_thread; Deliver 52 bare_reflection] pending).
  - reflexivity.
  - repeat constructor.
Defined.

(** ** [ChatMessagesView]: the keys of the entries *)

Lemma uint_digits_no_dash d :
  ~ In "-"%char (list_ascii_of_string (NilEmpty.string_of_uint d)).
Proof.
  induction d; simpl; try tauto; intros [H|H]; try discriminate; tauto.
Qed.

Lemma Number_toString_no_dash n :
  ~ In "-"%char (list_ascii_of_string (Js.Number_toString (Z.of_nat n))).
Proof.
  unfold Js.Number_toString.
  destruct (Z.of_nat n) as [|p|p] eqn:E; [| |lia].
  - simpl. intros [H|[]]. discriminate.
  - simpl. unfold NilZero.string_of_uint.
    pose proof (Unsigned.to_uint_nonnil p) as Hn.
    destruct (Pos.to_uint p) eqn:U; [contradiction|..]; rewrite <- U;
      apply uint_digits_no_dash.
Qed.

Lemma Number_toString_inj a b :
  Js.Number_toString a = Js.Number_toString b -> a = b.
Proof.
  unfold Js.Number_toString. intros H.
  assert (Hnn : forall z, Z.to_int z <> Decimal.Pos Decimal.Nil /\
                          Z.to_int z <> Decimal.Neg Decimal.Nil).
  { intros [|p|p]; simpl; split; try discriminate;
      intros [= Hp]; exact (Unsigned.to_uint_nonnil p Hp). }
  apply (f_equal NilZero.int_of_string) in H.
  rewrite !NilZero.isi in H by apply Hnn.
  injection H as H. apply DecimalZ.to_int_inj. exact H.
Qed.

(** Two strings that end with a dash and a dash-free tail agree on that
    tail. *)
Lemma last_dash_segment (p1 p2 d1 d2 : list ascii) :
  ~ In "-"%char d1 -> ~ In "-"%char d2 ->
  p1 ++ "-"%char :: d1 = p2 ++ "-"%char :: d2 -> d1 = d2.
Proof.
  intros H1 H2. revert p2. induction p1 as [|x p1 IH]; intros [|y p2] E; simpl in E.
  - congruence.
  - injection E as <- E. exfalso. apply H1. rewrite E. apply in_or_app.
    right. left. reflexivity.
  - injection E as -> E. exfalso. apply H2. rewrite <- E. apply in_or_app.
    right. left. reflexivity.
  - injection E as _ E. exact (IH _ E).
Qed.

Lemma message_key_index i j m m' :
  message_key i m = message_key j m' -> i = j.
Proof.
  unfold message_key. intros H.
  apply (f_equal list_ascii_of_string) in H.
  rewrite !chars_app in H. simpl in H.
  match type of H with
  | ?A ++ ?c :: ?T ++ ?r = ?A' ++ ?c' :: ?T' ++ ?r' =>
      change (A ++ (c :: T) ++ r = A' ++ (c' :: T') ++ r') in H;
      rewrite !app_assoc in H
  end.
  assert (E : list_ascii_of_string (Js.Number_toString (Z.of_nat i)) =
              list_ascii_of_string (Js.Number_toString (Z.of_nat j))).
  { eapply last_dash_segment; [| |exact H]; apply Number_toString_no_dash. }
  apply chars_inj, Number_toString_inj in E. lia.
Qed.

(** X10. The React keys of the transcript entries are pairwise distinct,
    whatever the identifiers of the messages are: missing, empty or repeated
    identifiers and identifiers that contain dashes or digits never make two
    entries share a key. *)
Theorem message_keys_distinct (ms : list Message.t) :
  NoDup (memoizedMessages_keys ms)
  /\ length (memoizedMessages_keys ms) = length ms.
Proof.
  unfold memoizedMessages_keys. split; [|apply length_imap].
  apply NoDup_alt. intros i j k Hi Hj.
  rewrite list_lookup_imap in Hi, Hj.
  destruct (ms !! i) as [m|]; [|discriminate].
  destruct (ms !! j) as [m'|]; [|discriminate].
  simpl in *. injection Hi as Hi. injection Hj as Hj.
  apply (message_key_index i j m m'). congruence.
Qed.

(** ** [ChatMessagesView]: where the activity is drawn *)

Lemma ChatMessagesView_entry ms loading live archive stored isVisible index :
  ChatMessagesView ms loading live archive stored isVisible !! index =
  (fun m =>
     if String.eqb (Message.type m) "human"
     then HumanMessageBubble m
     else render_AiMessageBubble m (archive !! property_key (Message.id m)) live
            (index =? length ms - 1)%nat loading
            (if (index =? length ms - 1)%nat then stored else None) isVisible)
  <$> (ms !! index).
Proof. unfold ChatMessagesView. apply list_lookup_imap. Qed.

Lemma ChatMessagesView_live ms loading live archive stored isVisible index b :
  ChatMessagesView ms loading live archive stored isVisible !! index = Some b ->
  exists m, ms !! index = Some m /\
            is_live b = (index =? length ms - 1)%nat && loading &&
                        negb (String.eqb (Message.type m) "human").
Proof.
  rewrite ChatMessagesView_entry.
  destruct (ms !! index) as [m|]; [|discriminate]. simpl. intros [= <-].
  exists m. split; [reflexivity|].
  destruct (String.eqb (Message.type m) "human"); simpl;
    [rewrite andb_false_r|rewrite andb_true_r]; reflexivity.
Qed.

(** X11. The live activity of the running turn is drawn in one place at
    most.  While nothing loads there is no placeholder and no entry is
    drawn as live.  While a turn loads: if the transcript is empty or ends
    with a human message the placeholder is drawn and no entry is live;
    otherwise there is no placeholder and the last entry, and only it, is
    live. *)
Theorem live_activity_in_one_place (ms : list Message.t) (loading : bool)
    (live : list ProcessedEvent) (archive : gmap string (list ProcessedEvent))
    (stored : option StableResults.t) (isVisible : bool) :
  let bubbles := ChatMessagesView ms loading live archive stored isVisible in
  let placeholder := loading_placeholder ms loading live in
  (loading = false ->
   placeholder = None /\ forall i b, bubbles !! i = Some b -> is_live b = false)
  /\ (loading = true ->
      match lastMessage ms with
      | None => ms = [] /\ is_Some placeholder /\ bubbles = []
      | Some m =>
          if String.eqb (Message.type m) "human"
          then is_Some placeholder /\
               forall i b, bubbles !! i = Some b -> is_live b = false
          else placeholder = None /\
               forall i b, bubbles !! i = Some b ->
                           is_live b = (i =? length ms - 1)%nat
      end).
Proof.
  intros bubbles placeholder. subst bubbles placeholder. split.
  - intros ->. split; [reflexivity|].
    intros i b Hb. apply ChatMessagesView_live in Hb as (m & _ & ->).
    rewrite andb_false_r. reflexivity.
  - intros ->. unfold loading_placeholder. simpl.
    destruct (lastMessage ms) as [m|] eqn:L.
    + assert (Hlen : (length ms =? 0)%nat = false).
      { unfold lastMessage in L. apply lookup_lt_Some in L.
        apply Nat.eqb_neq. lia. }
      rewrite Hlen. simpl.
      destruct (String.eqb (Message.type m) "human") eqn:T.
      * split; [eauto|]. intros i b Hb.
        apply ChatMessagesView_live in Hb as (m' & Hm' & ->).
        destruct (i =? length ms - 1)%nat eqn:E; [|reflexivity].
        apply Nat.eqb_eq in E. subst i. unfold lastMessage in L.
        rewrite L in Hm'. injection Hm' as <-. rewrite T. reflexivity.
      * split; [reflexivity|]. intros i b Hb.
        apply ChatMessagesView_live in Hb as (m' & Hm' & ->).
        destruct (i =? length ms - 1)%nat eqn:E; [|reflexivity].
        apply Nat.eqb_eq in E. subst i. unfold lastMessage in L.
        rewrite L in Hm'. injection Hm' as <-. rewrite T. reflexivity.
    + assert (ms = []) as ->.
      { unfold lastMessage in L. apply lookup_ge_None in L.
        destruct ms; [reflexivity|simpl in L; lia]. }
      simpl. split; [reflexivity|]. split; [eauto|reflexivity].
Qed.

Lemma live_activity_in_one_place_witness :
  loading_placeholder (messages (thread streaming_world)) true
    (processedEventsTimeline (app streaming_world)) =
  Some (PlaceholderTimeline (processedEventsTimeline (app streaming_world))).
Proof.
  destruct (live_activity_in_one_place (messages (thread streaming_world)) true
              (processedEventsTimeline (app streaming_world)) ∅ None true)
    as [_ H].
  specialize (H eq_refl). simpl in H. destruct H as [[x Hx] _].
  reflexivity.
Defined.



(** ** [YouTubeResults]: the keys of the video cards *)

Lemma append_cancel_r (a b s : string) : (a ++ s = b ++ s)%string -> a = b.
Proof.
  intros H. apply chars_inj. apply (f_equal list_ascii_of_string) in H.
  rewrite !chars_app in H. exact (app_inv_tail _ _ _ H).
Qed.

Lemma video_card_keys_lookup r vs i :
  StableResults.videos r = Some vs ->
  video_card_keys r !! i = video_card_key r i <$> (vs !! i).
Proof. unfold video_card_keys. intros ->. apply list_lookup_imap. Qed.

(** X13. The keys of the video cards.  With the time stamp the page puts on
    stored results (any number but zero) a card's key is its video
    identifier followed by that stamp, so the keys are pairwise distinct
    exactly when the video identifiers are: a video listed twice gets the
    same key twice.  With a zero stamp the position is used instead and the
    keys are always distinct. *)
Theorem video_card_keys_distinct (r : StableResults.t) (vs : list YouTubeVideo.t) :
  StableResults.videos r = Some vs ->
  (StableResults.timestamp r <> 0%Z ->
   (NoDup (video_card_keys r) <-> NoDup (YouTubeVideo.video_id <$> vs)))
  /\ (StableResults.timestamp r = 0%Z -> NoDup (video_card_keys r)).
Proof.
  intros Hv. split.
  - intros Hts.
    assert (K : forall i v, video_card_key r i v =
                  (YouTubeVideo.video_id v ++ "-" ++
                   Js.Number_toString (StableResults.timestamp r))%string).
    { intros i v. unfold video_card_key, JsExtra.truthy_number.
      destruct (Z.eqb_spec (StableResults.timestamp r) 0); [contradiction|reflexivity]. }
    split; intros H; apply NoDup_alt; intros i j x Hi Hj.
    + rewrite list_lookup_fmap in Hi, Hj.
      destruct (vs !! i) as [v|] eqn:Vi; [|discriminate].
      destruct (vs !! j) as [v'|] eqn:Vj; [|discriminate].
      simpl in *. injection Hi as Hi. injection Hj as Hj.
      apply (proj1 (NoDup_alt _) H i j (video_card_key r i v)).
      * rewrite (video_card_keys_lookup r vs i Hv), Vi. reflexivity.
      * rewrite (video_card_keys_lookup r vs j Hv), Vj. simpl.
        rewrite !K. congruence.
    + rewrite (video_card_keys_lookup r vs i Hv) in Hi.
    rewrite (video_card_keys_lookup r vs j Hv) in Hj.
      destruct (vs !! i) as [v|] eqn:Vi; [|discriminate].
      destruct (vs !! j) as [v'|] eqn:Vj; [|discriminate].
      simpl in *. injection Hi as Hi. injection Hj as Hj.
      rewrite K in Hi, Hj. subst x. apply append_cancel_r in Hj.
      apply (proj1 (NoDup_alt _) H i j (YouTubeVideo.video_id v));
        rewrite list_lookup_fmap; [rewrite Vi|rewrite Vj]; simpl; congruence.
  - intros Hts. apply NoDup_alt. intros i j x Hi Hj.
    rewrite (video_card_keys_lookup r vs i Hv) in Hi.
    rewrite (video_card_keys_lookup r vs j Hv) in Hj.
    destruct (vs !! i) as [v|]; [|discriminate].
    destruct (vs !! j) as [v'|]; [|discriminate].
    simpl in *. injection Hi as Hi. injection Hj as Hj. subst x.
    unfold video_card_key, JsExtra.truthy_number in Hj. rewrite Hts in Hj.
    simpl in Hj. apply (f_equal list_ascii_of_string) in Hj.
    rewrite !chars_app in Hj. simpl in Hj.
    assert (E : list_ascii_of_string (Js.Number_toString (Z.of_nat j)) =
                list_ascii_of_string (Js.Number_toString (Z.of_nat i))).
    { eapply last_dash_segment; [| |exact Hj]; apply Number_toString_no_dash. }
    apply chars_inj, Number_toString_inj in E. lia.
Qed.

Lemma video_card_keys_distinct_witness :
  ~ NoDup (video_card_keys
             (StableResults.mk
                (YouTubeResults.mk (Some [sample_video; sample_video]) (Some "cats")
                                   (Some 2%Z)) 40 "thread_20_k3j9x1q0z")).
Proof.
  set (r := StableResults.mk
              (YouTubeResults.mk (Some [sample_video; sample_video]) (Some "cats")
                                 (Some 2%Z)) 40 "thread_20_k3j9x1q0z").
  intros H.
  destruct (video_card_keys_distinct r [sample_video; sample_video] eq_refl)
    as [Hiff _].
  apply Hiff in H; [|discriminate].
  inversion H as [|? ? Hin _]. apply Hin. constructor.
Defined.

(** ** [VoiceInput]: the button and the status lines *)

(** X14. The colour, the title, the icon, the click handler and the status
    lines of the voice button always describe the same one of four
    situations (recording, processing, error, ready); of the recording,
    starting and error lines at most one is drawn, and the button is
    disabled whenever it shows the processing icon. *)
Theorem voice_button_face_consistent (p : VoiceInput.Props) (s : VoiceInput.State) :
  (VoiceInput.render p s = None <-> VoiceInput.isSupported s = false) /\
  (VoiceInput.render p s <> None ->
   VoiceInput.render p s =
     Some (VoiceInput.mkRendered (VoiceInput.button_icon s) (VoiceInput.getButtonTitle s)
             (VoiceInput.getButtonColor s) (VoiceInput.onClick s)
             (VoiceInput.button_disabled p s)
             (flat_map (fun line => match line with Some l => [l] | None => [] end)
                [VoiceInput.recording_line s; VoiceInput.starting_line s;
                 VoiceInput.error_line s; VoiceInput.confidence_line s]))) /\
  ((VoiceInput.button_icon s = VoiceInput.Square /\
   VoiceInput.getButtonTitle s = "Stop recording (click to finish)" /\
   VoiceInput.getButtonColor s = "text-red-500 hover:text-red-400 hover:bg-red-500/10" /\
   VoiceInput.onClick s = VoiceInput.ClickStops /\
   VoiceInput.recording_line s = Some "Recording..." /\
   VoiceInput.starting_line s = None /\ VoiceInput.error_line s = None /\
   VoiceInput.confidence_line s = None)
  \/ (VoiceInput.button_icon s = VoiceInput.MicOff /\
      VoiceInput.getButtonTitle s = "Processing speech..." /\
      VoiceInput.getButtonColor s =
        "text-yellow-500 hover:text-yellow-400 hover:bg-yellow-500/10" /\
      VoiceInput.onClick s = VoiceInput.ClickStarts /\
      VoiceInput.button_disabled p s = true /\
      VoiceInput.recording_line s = None /\
      VoiceInput.starting_line s = Some "Starting..." /\
      VoiceInput.error_line s = None)
  \/ (VoiceInput.button_icon s = VoiceInput.AlertCircle /\
      VoiceInput.getButtonTitle s = "Voice input error - click to retry" /\
      VoiceInput.getButtonColor s = "text-red-400 hover:text-red-300 hover:bg-red-500/10" /\
      VoiceInput.onClick s = VoiceInput.ClickStarts /\
      VoiceInput.button_disabled p s = VoiceInput.disabled p /\
      VoiceInput.recording_line s = None /\ VoiceInput.starting_line s = None /\
      (exists message, VoiceInput.error s = Some message /\
                       VoiceInput.error_line s = Some (VoiceInput.error_text message)) /\
      VoiceInput.confidence_line s = None)
  \/ (VoiceInput.button_icon s = VoiceInput.Mic /\
      VoiceInput.getButtonTitle s = "Start voice input" /\
      VoiceInput.getButtonColor s =
        "text-neutral-400 hover:text-blue-400 hover:bg-blue-500/10" /\
      VoiceInput.onClick s = VoiceInput.ClickStarts /\
      VoiceInput.button_disabled p s = VoiceInput.disabled p /\
      VoiceInput.recording_line s = None /\ VoiceInput.starting_line s = None /\
      VoiceInput.error_line s = None)).
Proof.
  split.
  { unfold VoiceInput.render. destruct (VoiceInput.isSupported s); simpl;
      split; congruence. }
  split.
  { unfold VoiceInput.render. destruct (VoiceInput.isSupported s); simpl;
      [reflexivity|congruence]. }
  unfold VoiceInput.button_icon, VoiceInput.getButtonTitle, VoiceInput.getButtonColor,
    VoiceInput.onClick, VoiceInput.button_disabled, VoiceInput.recording_line,
    VoiceInput.starting_line, VoiceInput.error_line, VoiceInput.confidence_line.
  destruct (VoiceInput.isRecording s).
  { left. rewrite !andb_false_r. repeat split. }
  destruct (VoiceInput.isProcessing s).
  { right. left. rewrite !andb_false_r, orb_true_r. repeat split. }
  destruct (VoiceInput.has_error s) eqn:E.
  - right. right. left. rewrite orb_false_r, andb_false_r. simpl.
    do 7 (split; [reflexivity|]). split; [|reflexivity].
    unfold VoiceInput.has_error in E.
    destruct (VoiceInput.error s) as [message|]; [|discriminate]. eauto.
  - right. right. right. rewrite orb_false_r. repeat split.
Qed.

Lemma string_length_app (a b : string) :
  String.length (a ++ b)%string = (String.length a + String.length b)%nat.
Proof. induction a as [|c a IH]; simpl; [reflexivity|]. rewrite IH. reflexivity. Qed.

Lemma substring0_split (n : nat) (s : string) :
  exists rest,
    s = (JsExtra.substring0 n s ++ rest)%string /\
    String.length (JsExtra.substring0 n s) = Nat.min n (String.length s).
Proof.
  unfold JsExtra.substring0. revert s. induction n as [|n IH]; intros s.
  - exists s. destruct s; simpl; auto.
  - destruct s as [|c s]; simpl; [exists EmptyString; auto|].
    destruct (IH s) as (rest & Hs & Hl). exists rest.
    change (String c (substring 0 n s) ++ rest)%string
      with (String c (substring 0 n s ++ rest)%string).
    split; [f_equal; exact Hs | simpl; f_equal; exact Hl].
Qed.

(** X15. The error line never shows more than 33 characters: a message of
    at most 30 characters is shown whole, a longer one is cut to its first
    30 characters followed by three dots. *)
Theorem voice_error_text_bounded (message : string) :
  (String.length (VoiceInput.error_text message) <= 33)%nat
  /\ ((String.length message <= 30)%nat -> VoiceInput.error_text message = message)
  /\ ((30 < String.length message)%nat ->
      exists head rest,
        message = (head ++ rest)%string /\ String.length head = 30%nat /\
        VoiceInput.error_text message = (head ++ "...")%string).
Proof.
  unfold VoiceInput.error_text.
  destruct (substring0_split 30 message) as (rest & Hs & Hl).
  destruct (30 <? String.length message)%nat eqn:E.
  - apply Nat.ltb_lt in E. split; [|split].
    + rewrite string_length_app, Hl. change (String.length "...") with 3%nat. lia.
    + lia.
    + intros _. exists (JsExtra.substring0 30 message), rest.
      split; [exact Hs|]. split; [lia|reflexivity].
  - apply Nat.ltb_ge in E. split; [lia|]. split; [reflexivity|lia].
Qed.

Lemma voice_error_text_bounded_witness :
  VoiceInput.error_text
    "Microphone access denied. Please allow microphone access and try again." =
  "Microphone access denied. Plea...".
Proof.
  destruct (voice_error_text_bounded
    "Microphone access denied. Please allow microphone access and try again.")
    as (_ & _ & H).
  destruct H as (head & rest & _ & _ & E); [simpl; lia|].
  rewrite E, <- E. reflexivity.
Defined.

(** ** [VoiceInput]: errors *)

Lemma recognition_error_message_truthy code :
  Js.truthy (VoiceInput.recognition_error_message code) = true.
Proof.
  unfold VoiceInput.recognition_error_message.
  repeat (match goal with |- context [if ?b then _ else _] => destruct b end;
          try reflexivity).
Qed.

(** X16. A recognition error is always put before the user and releases
    everything: after [onerror], whatever the error code, the component
    neither records nor processes, holds no recognition, no microphone
    stream and no timer, shows the alert icon with the retry title and the
    error line, and the button is enabled unless the [disabled] prop says
    otherwise; nothing is handed to [onTranscription]. *)
Theorem recognition_error_is_shown (p : VoiceInput.Props) (code : string)
    (s : VoiceInput.State) :
  let s' := VoiceInput.onerror code s in
  VoiceInput.isRecording s' = false /\ VoiceInput.isProcessing s' = false
  /\ VoiceInput.recognitionRef s' = false /\ VoiceInput.streamRef s' = false
  /\ VoiceInput.timeoutRef s' = false
  /\ VoiceInput.button_icon s' = VoiceInput.AlertCircle
  /\ VoiceInput.getButtonTitle s' = "Voice input error - click to retry"
  /\ VoiceInput.error_line s' =
       Some (VoiceInput.error_text (VoiceInput.recognition_error_message code))
  /\ VoiceInput.button_disabled p s' = VoiceInput.disabled p
  /\ VoiceInput.transcriptions s' = VoiceInput.transcriptions s
  /\ (code <> "no-speech" -> code <> "audio-capture" -> code <> "not-allowed" ->
      code <> "network" ->
      VoiceInput.error s' = Some ("Recognition error: " ++ code)%string)
  /\ (VoiceInput.isSupported s = true ->
      exists v, VoiceInput.render p s' = Some v /\
                VoiceInput.icon v = VoiceInput.AlertCircle /\
                VoiceInput.lines v =
                  [VoiceInput.error_text (VoiceInput.recognition_error_message code)]).
Proof.
  intros s'. subst s'.
  assert (Hr : VoiceInput.isSupported s = true ->
      exists v, VoiceInput.render p (VoiceInput.onerror code s) = Some v /\
                VoiceInput.icon v = VoiceInput.AlertCircle /\
                VoiceInput.lines v =
                  [VoiceInput.error_text (VoiceInput.recognition_error_message code)]).
  { intros Hsup. unfold VoiceInput.render, VoiceInput.onerror, VoiceInput.finish,
      VoiceInput.cleanupResources. simpl. rewrite Hsup. simpl.
    eexists. split; [reflexivity|].
    unfold VoiceInput.button_icon, VoiceInput.recording_line, VoiceInput.starting_line,
      VoiceInput.error_line, VoiceInput.confidence_line, VoiceInput.has_error. simpl.
    rewrite recognition_error_message_truthy. simpl.
    rewrite andb_false_r. split; reflexivity. }
  revert Hr.
  unfold VoiceInput.onerror, VoiceInput.finish, VoiceInput.cleanupResources.
  unfold VoiceInput.button_icon, VoiceInput.getButtonTitle, VoiceInput.error_line,
    VoiceInput.button_disabled, VoiceInput.has_error. simpl.
  rewrite recognition_error_message_truthy, orb_false_r. simpl.
  intros Hr.
  do 10 (split; [reflexivity|]).
  split; [|exact Hr].
  intros H1 H2 H3 H4. unfold VoiceInput.recognition_error_message.
  destruct (String.eqb_spec code "no-speech"); [contradiction|].
  destruct (String.eqb_spec code "audio-capture"); [contradiction|].
  destruct (String.eqb_spec code "not-allowed"); [contradiction|].
  destruct (String.eqb_spec code "network"); [contradiction|reflexivity].
Qed.

Lemma recognition_error_is_shown_witness :
  VoiceInput.error (VoiceInput.onerror "aborted" VoiceInput.initial) =
  Some "Recognition error: aborted".
Proof.
  apply (recognition_error_is_shown (VoiceInput.mkProps false "en-US" false)
           "aborted" VoiceInput.initial); discriminate.
Defined.

(** X17. A start that fails leaves nothing behind: whether the microphone
    request is rejected, the page has no recognition constructor or
    [start()] throws, the component ends up neither recording nor
    processing and holds no recognition, no stream (also when the stream had
    already been obtained) and no timer.  The failure is put before the user
    unless the thrown [Error] has an empty message and is not one of the two
    errors the handler names; then no error line is drawn and the button
    looks ready. *)
Theorem failed_start_releases_everything (p : VoiceInput.Props)
    (outcome : VoiceInput.StartOutcome) (s : VoiceInput.State) :
  outcome <> VoiceInput.Started ->
  let s' := VoiceInput.startRecording p outcome s in
  VoiceInput.isRecording s' = false /\ VoiceInput.isProcessing s' = false
  /\ VoiceInput.recognitionRef s' = false /\ VoiceInput.streamRef s' = false
  /\ VoiceInput.timeoutRef s' = false
  /\ VoiceInput.transcriptions s' = VoiceInput.transcriptions s
  /\ (VoiceInput.has_error s' = false <->
      exists err, (outcome = VoiceInput.MediaRejected err \/
                   outcome = VoiceInput.StartThrows err) /\ silent_error err)
  /\ (VoiceInput.has_error s' = false ->
      VoiceInput.button_icon s' = VoiceInput.Mic /\ VoiceInput.error_line s' = None).
Proof.
  intros Hne s'. subst s'.
  assert (Hmsg : forall err,
            Js.truthy (VoiceInput.start_error_message err) = false <-> silent_error err).
  { intros [name message|]; simpl; unfold silent_error.
    - destruct (String.eqb_spec name "NotAllowedError").
      { split; [discriminate|]. intros (n' & [= <- _] & H & _). contradiction. }
      destruct (String.eqb_spec name "NotFoundError").
      { split; [discriminate|]. intros (n' & [= <- _] & _ & H). contradiction. }
      split.
      + intros H. destruct message; [|discriminate]. exists name. auto.
      + intros (n' & [= _ ->] & _). reflexivity.
    - split; [discriminate|]. intros (n' & H & _). discriminate. }
  destruct outcome as [err| |err|]; [| | |contradiction];
    unfold VoiceInput.startRecording, VoiceInput.finish, VoiceInput.cleanupResources,
      VoiceInput.has_error, VoiceInput.button_icon, VoiceInput.error_line,
      VoiceInput.has_error; simpl;
    do 6 (split; [reflexivity|]).
  - split.
    + rewrite Hmsg. split; [intros H; exists err; auto|].
      intros (err' & [[= <-]|H] & Hs); [exact Hs|discriminate].
    + intros ->. auto.
  - split.
    + split; [discriminate|]. intros (err' & [H|H] & _); discriminate.
    + discriminate.
  - split.
    + rewrite Hmsg. split; [intros H; exists err; auto|].
      intros (err' & [H|[= <-]] & Hs); [discriminate|exact Hs].
    + intros ->. auto.
Qed.

Lemma failed_start_releases_everything_witness :
  let s' := VoiceInput.startRecording (VoiceInput.mkProps false "en-US" false)
              VoiceInput.NoRecognition VoiceInput.initial in
  VoiceInput.streamRef s' = false /\ VoiceInput.isProcessing s' = false.
Proof.
  intros s'.
  destruct (failed_start_releases_everything (VoiceInput.mkProps false "en-US" false)
              VoiceInput.NoRecognition VoiceInput.initial)
    as (_ & Hp & _ & Hs & _); [discriminate|].
  split; [exact Hs | exact Hp].
Defined.

(** ** [VoiceInput]: what is handed to [onTranscription] *)

Lemma string_app_assoc (a b c : string) :
  ((a ++ b) ++ c)%string = (a ++ (b ++ c))%string.
Proof. apply chars_inj. rewrite !chars_app. symmetry. apply app_assoc. Qed.

Lemma string_app_nil_r (a : string) : (a ++ EmptyString)%string = a.
Proof. apply chars_inj. rewrite chars_app. apply app_nil_r. Qed.

Lemma concat_empty_cons (x : string) (l : list string) :
  String.concat EmptyString (x :: l) = (x ++ String.concat EmptyString l)%string.
Proof. destruct l; simpl; [symmetry; apply string_app_nil_r|reflexivity]. Qed.

Lemma react_all_cons p sig sigs s :
  VoiceInput.react_all p (sig :: sigs) s =
  VoiceInput.react_all p sigs (VoiceInput.react p sig s).
Proof. reflexivity. Qed.

Lemma onresult_fields p event s :
  VoiceInput.finalTranscript (VoiceInput.onresult p event s) =
    (VoiceInput.finalTranscript s ++ String.concat EmptyString (spoken event))%string
  /\ VoiceInput.transcriptions (VoiceInput.onresult p event s) =
       VoiceInput.transcriptions s ++
       (if VoiceInput.continuous p then map Js.trim (spoken event) else []).
Proof.
  unfold VoiceInput.onresult, spoken.
  destruct (VoiceInput.scan event) as [transcript maxConfidence]. simpl.
  destruct (Js.truthy (Js.trim transcript)); simpl.
  - split; [reflexivity|]. destruct (VoiceInput.continuous p);
      [reflexivity|symmetry; apply app_nil_r].
  - split; [symmetry; apply string_app_nil_r|].
    destruct (VoiceInput.continuous p); symmetry; apply app_nil_r.
Qed.

Lemma results_fields p events : forall s,
  let s1 := VoiceInput.react_all p (map VoiceInput.SigOnResult events) s in
  VoiceInput.finalTranscript s1 =
    (VoiceInput.finalTranscript s ++
     String.concat EmptyString (flat_map spoken events))%string
  /\ VoiceInput.transcriptions s1 =
       VoiceInput.transcriptions s ++
       (if VoiceInput.continuous p then map Js.trim (flat_map spoken events) else []).
Proof.
  induction events as [|event rest IH]; intros s.
  - simpl. split; [symmetry; apply string_app_nil_r|].
    destruct (VoiceInput.continuous p); symmetry; apply app_nil_r.
  - cbv zeta.
    change (map VoiceInput.SigOnResult (event :: rest))
      with (VoiceInput.SigOnResult event :: map VoiceInput.SigOnResult rest).
    rewrite react_all_cons.
    change (VoiceInput.react p (VoiceInput.SigOnResult event) s)
      with (VoiceInput.onresult p event s).
    destruct (IH (VoiceInput.onresult p event s)) as [Hf Ht].
    destruct (onresult_fields p event s) as [Ef Et].
    rewrite Hf, Ht, Ef, Et.
    change (flat_map spoken (event :: rest))
      with (spoken event ++ flat_map spoken rest).
    split.
    + rewrite string_app_assoc. f_equal. unfold spoken.
      destruct (Js.truthy (Js.trim (fst (VoiceInput.scan event)))); simpl;
        [symmetry; apply concat_empty_cons | reflexivity].
    + rewrite <- app_assoc. f_equal.
      destruct (VoiceInput.continuous p); [|reflexivity].
      rewrite map_app. reflexivity.
Qed.

(** X18. What a recognition hands to [onTranscription].  Over any sequence
    of result events the running transcript is the concatenation of the
    batches that are not blank (blank batches are dropped whole).  Outside
    continuous mode nothing is handed out while results arrive, and [onend]
    hands out the trimmed transcript once, or nothing when it is blank.  In
    continuous mode each batch that is not blank is handed out trimmed as it
    arrives, and [onend] hands out nothing more. *)
Theorem voice_session_transcriptions (p : VoiceInput.Props)
    (events : list VoiceInput.SpeechRecognitionEvent) (s : VoiceInput.State) :
  let s1 := VoiceInput.react_all p (map VoiceInput.SigOnResult events) s in
  let said := flat_map spoken events in
  VoiceInput.finalTranscript s1 =
    (VoiceInput.finalTranscript s ++ String.concat EmptyString said)%string
  /\ (VoiceInput.continuous p = false ->
      VoiceInput.transcriptions s1 = VoiceInput.transcriptions s /\
      VoiceInput.transcriptions (VoiceInput.onend p s1) =
        VoiceInput.transcriptions s ++
        (if Js.truthy (Js.trim (VoiceInput.finalTranscript s1))
         then [Js.trim (VoiceInput.finalTranscript s1)] else []))
  /\ (VoiceInput.continuous p = true ->
      VoiceInput.transcriptions s1 = VoiceInput.transcriptions s ++ map Js.trim said /\
      VoiceInput.transcriptions (VoiceInput.onend p s1) = VoiceInput.transcriptions s1).
Proof.
  intros s1 said. subst s1 said.
  destruct (results_fields p events s) as [Hf Ht]. split; [exact Hf|].
  split; intros C; rewrite C in Ht.
  - rewrite app_nil_r in Ht. split; [exact Ht|].
    unfold VoiceInput.onend. simpl. rewrite C, Ht. simpl.
    destruct (Js.truthy _); [reflexivity|symmetry; apply app_nil_r].
  - split; [exact Ht|]. unfold VoiceInput.onend. simpl. rewrite C. reflexivity.
Qed.

Lemma voice_session_transcriptions_witness :
  let final t := VoiceInput.mkResult (VoiceInput.mkAlternative t (Some (9 # 10))) true in
  let events := [VoiceInput.mkEvent [final "capital "] 0;
                 VoiceInput.mkEvent [final "capital "; final " "] 1;
                 VoiceInput.mkEvent [final "capital "; final " "; final "of France "] 2] in
  let p := VoiceInput.mkProps false "en-US" false in
  VoiceInput.transcriptions
    (VoiceInput.onend p
       (VoiceInput.react_all p (map VoiceInput.SigOnResult events) VoiceInput.initial)) =
  ["capital of France"].
Proof.
  intros final events p.
  destruct (voice_session_transcriptions p events VoiceInput.initial) as (_ & H & _).
  destruct (H eq_refl) as [_ E]. rewrite E. reflexivity.
Defined.

Lemma react_transcriptions p sig s :
  exists added,
    VoiceInput.transcriptions (VoiceInput.react p sig s) =
      VoiceInput.transcriptions s ++ added /\
    Forall clean_transcription added.
Proof.
  assert (Hc : forall t, Js.truthy (Js.trim t) = true -> clean_transcription (Js.trim t))
    by (intros t Ht; split; [exact Ht|apply trim_idempotent]).
  destruct sig as [outcome|stop_throws| |event|code|]; simpl.
  - exists []. rewrite app_nil_r. split; [|constructor].
    destruct outcome; reflexivity.
  - exists []. rewrite app_nil_r. split; [|constructor].
    unfold VoiceInput.stopRecording. simpl.
    destruct (VoiceInput.recognitionRef s), stop_throws; reflexivity.
  - exists []. rewrite app_nil_r. split; [reflexivity|constructor].
  - unfold VoiceInput.onresult.
    destruct (VoiceInput.scan event) as [transcript maxConfidence].
    destruct (Js.truthy (Js.trim transcript)) eqn:T; simpl.
    + destruct (VoiceInput.continuous p).
      * exists [Js.trim transcript]. split; [reflexivity|]. repeat constructor; auto.
        apply trim_idempotent.
      * exists []. rewrite app_nil_r. split; [reflexivity|constructor].
    + exists []. rewrite app_nil_r. split; [reflexivity|constructor].
  - exists []. rewrite app_nil_r. split; [reflexivity|constructor].
  - unfold VoiceInput.onend. simpl.
    destruct (negb (VoiceInput.continuous p)); simpl;
      [|exists []; rewrite app_nil_r; split; [reflexivity|constructor]].
    destruct (Js.truthy (Js.trim (VoiceInput.finalTranscript s))) eqn:T.
    + eexists. split; [reflexivity|]. repeat constructor; auto.
      apply trim_idempotent.
    + exists []. rewrite app_nil_r. split; [reflexivity|constructor].
Qed.

(** X19. Whatever the recognition and the user do, every text handed to
    [onTranscription] is non-empty and carries no white space at either end,
    and texts already handed out are never taken back or changed. *)
Theorem voice_transcriptions_clean (p : VoiceInput.Props)
    (sigs : list VoiceInput.Signal) (s : VoiceInput.State) :
  Forall clean_transcription (VoiceInput.transcriptions s) ->
  exists added,
    VoiceInput.transcriptions (VoiceInput.react_all p sigs s) =
      VoiceInput.transcriptions s ++ added
    /\ Forall clean_transcription (VoiceInput.transcriptions (VoiceInput.react_all p sigs s)).
Proof.
  revert s. induction sigs as [|sig rest IH]; intros s Hs.
  - exists []. rewrite app_nil_r. auto.
  - rewrite react_all_cons.
    destruct (react_transcriptions p sig s) as (a1 & E1 & C1).
    destruct (IH (VoiceInput.react p sig s)) as (a2 & E2 & C2).
    { rewrite E1. apply Forall_app. auto. }
    exists (a1 ++ a2). split; [|exact C2].
    rewrite E2, E1, app_assoc. reflexivity.
Qed.

Lemma voice_transcriptions_clean_witness :
  let final t := VoiceInput.mkResult (VoiceInput.mkAlternative t None) true in
  let p := VoiceInput.mkProps false "en-US" true in
  Forall clean_transcription
    (VoiceInput.transcriptions
       (VoiceInput.react_all p
          [VoiceInput.SigStart VoiceInput.Started; VoiceInput.SigOnStart;
           VoiceInput.SigOnResult (VoiceInput.mkEvent [final "  hello "] 0);
           VoiceInput.SigOnEnd] VoiceInput.initial)).
Proof.
  intros final p.
  destruct (voice_transcriptions_clean p
              [VoiceInput.SigStart VoiceInput.Started; VoiceInput.SigOnStart;
               VoiceInput.SigOnResult (VoiceInput.mkEvent [final "  hello "] 0);
               VoiceInput.SigOnEnd] VoiceInput.initial) as (added & _ & H);
    [constructor|exact H].
Defined.

(** ** [VoiceInput]: the confidence shown *)

Lemma Math_max_bounds a b :
  (0 <= a -> 0 <= JsExtra.Math_max a b)%Q
  /\ (a <= 1 -> b <= 1 -> JsExtra.Math_max a b <= 1)%Q.
Proof.
  unfold JsExtra.Math_max. destruct (Qlt_le_dec a b); split; intros; lra.
Qed.

Lemma scan_bounds (results : list VoiceInput.SpeechRecognitionResult) : forall acc,
  (0 <= snd acc)%Q ->
  (0 <= snd (fold_left VoiceInput.scan_step results acc))%Q
  /\ ((snd acc <= 1)%Q ->
      Forall (fun r => (JsExtra.or_zero
                          (VoiceInput.confidence (VoiceInput.first_alternative r)) <= 1)%Q)
             results ->
      (snd (fold_left VoiceInput.scan_step results acc) <= 1)%Q).
Proof.
  induction results as [|r rest IH]; intros acc H0; simpl; [auto|].
  assert (Hstep : (0 <= snd (VoiceInput.scan_step acc r))%Q).
  { unfold VoiceInput.scan_step. destruct (VoiceInput.isFinal r); simpl; [|exact H0].
    apply Math_max_bounds. exact H0. }
  destruct (IH _ Hstep) as [Hl Hu]. split; [exact Hl|].
  intros H1 Hall. inversion Hall as [|? ? Hr Hrest]; subst.
  apply Hu; [|exact Hrest].
  unfold VoiceInput.scan_step. destruct (VoiceInput.isFinal r); simpl; [|exact H1].
  apply Math_max_bounds; assumption.
Qed.

Lemma Forall_drop_weaken {A} (P : A -> Prop) n l : Forall P l -> Forall P (drop n l).
Proof. apply Forall_drop. Qed.

Lemma react_confidence p sig s :
  (0 <= VoiceInput.confidence_cell s)%Q ->
  (0 <= VoiceInput.confidence_cell (VoiceInput.react p sig s))%Q
  /\ ((VoiceInput.confidence_cell s <= 1)%Q -> confidences_at_most_one sig ->
      (VoiceInput.confidence_cell (VoiceInput.react p sig s) <= 1)%Q).
Proof.
  intros H0.
  destruct sig as [outcome|stop_throws| |event|code|]; simpl.
  - destruct outcome; simpl; auto.
  - unfold VoiceInput.stopRecording. simpl.
    destruct (VoiceInput.recognitionRef s), stop_throws; simpl; auto.
  - auto.
  - unfold VoiceInput.onresult, VoiceInput.scan.
    destruct (scan_bounds (drop (VoiceInput.resultIndex event) (VoiceInput.results event))
                (EmptyString, 0%Q)) as [Hl Hu]; [simpl; lra|].
    destruct (fold_left _ _ _) as [transcript maxConfidence]. simpl in *.
    destruct (Js.truthy (Js.trim transcript)); simpl; [|auto].
    split; [exact Hl|]. intros _ Hall. apply Hu; [lra|].
    apply Forall_drop_weaken. exact Hall.
  - auto.
  - auto.
Qed.

(** X20. The confidence the component stores is never negative, whatever
    the recognition reports (also for missing or negative confidences); when
    every reported confidence is at most 1 it stays at most 1, and the
    percentage drawn lies between 0 and 100. *)
Theorem voice_confidence_bounds (p : VoiceInput.Props) (sigs : list VoiceInput.Signal)
    (s : VoiceInput.State) :
  (0 <= VoiceInput.confidence_cell s)%Q ->
  let s' := VoiceInput.react_all p sigs s in
  (0 <= VoiceInput.confidence_cell s')%Q
  /\ ((VoiceInput.confidence_cell s <= 1)%Q ->
      Forall confidences_at_most_one sigs ->
      (VoiceInput.confidence_cell s' <= 1)%Q /\
      (0 <= Js.Math_round (Qmult (VoiceInput.confidence_cell s') (100 # 1)) <= 100)%Z).
Proof.
  revert s. induction sigs as [|sig rest IH]; intros s H0 s'; subst s'.
  - simpl. split; [exact H0|]. intros H1 _. split; [exact H1|].
    unfold Js.Math_round.
    set (x := (VoiceInput.confidence_cell s * (100 # 1) + (1 # 2))%Q).
    assert (Hx : (0 <= x /\ x <= 201 # 2)%Q) by (subst x; split; lra).
    pose proof (Qfloor_resp_le 0 x (proj1 Hx)) as A.
    pose proof (Qfloor_resp_le x (201 # 2) (proj2 Hx)) as B.
    change (Qfloor 0) with 0%Z in A. change (Qfloor (201 # 2)) with 100%Z in B.
    split; assumption.
  - rewrite react_all_cons.
    destruct (react_confidence p sig s H0) as [Hl Hu].
    destruct (IH _ Hl) as [Hl' Hu']. split; [exact Hl'|].
    intros H1 Hall. inversion Hall as [|? ? Hsig Hrest]; subst.
    apply Hu'; [apply Hu; assumption|exact Hrest].
Qed.

Lemma voice_confidence_bounds_witness :
  let result c := VoiceInput.mkResult (VoiceInput.mkAlternative "hello" c) true in
  let p := VoiceInput.mkProps false "en-US" false in
  (0 <= VoiceInput.confidence_cell
          (VoiceInput.react_all p
             [VoiceInput.SigOnResult
                (VoiceInput.mkEvent [result (Some (-(1 # 2))); result None] 0)]
             VoiceInput.initial))%Q.
Proof.
  intros result p.
  assert (H0 : (0 <= VoiceInput.confidence_cell VoiceInput.initial)%Q)
    by (simpl; lra).
  exact (proj1 (voice_confidence_bounds p
                  [VoiceInput.SigOnResult
                     (VoiceInput.mkEvent [result (Some (-(1 # 2))); result None] 0)]
                  VoiceInput.initial H0)).
Defined.

Lemma voice_button_face_consistent_witness :
  VoiceInput.render (VoiceInput.mkProps false "en-US" false) VoiceInput.initial = None.
Proof.
  apply (voice_button_face_consistent (VoiceInput.mkProps false "en-US" false)
           VoiceInput.initial).
  reflexivity.
Defined.
